(** * Profiler.hpp: a shallow embedding of the trace recorder and its timer

    The development follows [src/Profiler.hpp].  The [Recorder] class keeps a
    session pointer, a mutex, an output file stream and a first-record flag;
    its three public operations are modelled as commands over a [World] that
    holds the singleton instance together with the part of the environment the
    code touches: the files on disk, which paths can be opened for writing,
    and the text sent to the log stream.  A command either returns or
    blocks for ever on the (non-recursive) mutex.

    The text the recorder writes is meant to be read by a JSON parser, so the
    file also contains a small executable JSON reader (RFC 8259 at the byte
    level) used to state what "syntactically valid JSON" means. *)

From Stdlib Require Import ZArith String Ascii List Bool Lia.
From Stdlib Require Import DecimalString DecimalFacts DecimalPos DecimalZ.
From stdpp Require Import gmap strings list fin_maps.

Local Open Scope Z_scope.

(* ===================================================================== *)
(** * Text: characters, literals, integer output                          *)
(* ===================================================================== *)

Module Text.

(** The double-quote character, code 34. *)
Definition dquote : ascii := "034"%char.
(** The apostrophe, code 39: the C++ literal '\''. *)
Definition squote : ascii := "'"%char.
(** The backslash, code 92. *)
Definition backslash : ascii := "\"%char.

(** [std::replace(first, last, old_value, new_value)] over a whole string:
    every element equal to [old_value] is overwritten, the others are left
    as they are. *)
Fixpoint replace (old_value new_value : ascii) (s : string) : string :=
  match s with
  | EmptyString => EmptyString
  | String c s' =>
      String (if Ascii.eqb c old_value then new_value else c)
             (replace old_value new_value s')
  end.

(** C++ string literals of the source contain escaped double quotes.  They
    are written here with an apostrophe where the source has an escaped
    double quote (none of the source's literals contains an apostrophe), and
    [lit] puts the double quotes back. *)
Definition lit (s : string) : string := replace squote dquote s.

(** [operator<<] of an output stream for an integer, in the default base and
    locale: an optional minus sign and the decimal digits. *)
Definition put_integer (z : Z) : string := NilZero.string_of_int (Z.to_int z).

(** The successive insertions [s << a << b << ...] into a string stream,
    read back with [str()]. *)
Definition str (pieces : list string) : string :=
  fold_right String.append EmptyString pieces.

(** Two's complement wrap-around of [long long] arithmetic. *)
Definition wrap_long_long (z : Z) : Z := (z + 2 ^ 63) mod 2 ^ 64 - 2 ^ 63.

(** The conversion [(uint32_t) x]. *)
Definition to_uint32 (z : Z) : Z := z mod 2 ^ 32.

End Text.

(* ===================================================================== *)
(** * Json: a reader for JSON texts                                       *)
(* ===================================================================== *)

Module Json.
Import Text.

(** Parsed values.  Strings and numbers keep their lexeme: the bytes
    between the quotes, resp. the digits as written. *)
#[warnings="-register-all"]
Inductive json : Type :=
| JNull
| JBool (b : bool)
| JNumber (lexeme : string)
| JString (raw : string)
| JArray (elements : list json)
| JObject (members : list (string * json)).

Definition is_ws (c : ascii) : bool :=
  (Ascii.eqb c " " || Ascii.eqb c "009" || Ascii.eqb c "010" || Ascii.eqb c "013")%bool.

Definition is_digit (c : ascii) : bool :=
  ((48 <=? N_of_ascii c) && (N_of_ascii c <=? 57))%N.

Definition is_hex (c : ascii) : bool :=
  (is_digit c
   || ((65 <=? N_of_ascii c) && (N_of_ascii c <=? 70))
   || ((97 <=? N_of_ascii c) && (N_of_ascii c <=? 102)))%N%bool.

(** Control characters (below U+0020) may not occur unescaped in a string. *)
Definition is_control (c : ascii) : bool := (N_of_ascii c <? 32)%N.

(** The characters that may follow a backslash, [u] apart. *)
Definition is_simple_escape (c : ascii) : bool :=
  (Ascii.eqb c dquote || Ascii.eqb c backslash || Ascii.eqb c "/"
   || Ascii.eqb c "b" || Ascii.eqb c "f" || Ascii.eqb c "n"
   || Ascii.eqb c "r" || Ascii.eqb c "t")%bool.

Fixpoint skip_ws (s : string) : string :=
  match s with
  | String c s' => if is_ws c then skip_ws s' else s
  | EmptyString => EmptyString
  end.

Definition cons_lexeme (pre : string) (r : option (string * string))
  : option (string * string) :=
  match r with
  | Some (lx, rest) => Some (pre +:+ lx, rest)
  | None => None
  end.

(** The body of a string, after its opening quote: the lexeme up to the
    closing quote, and what follows it. *)
Fixpoint lex_string_body (s : string) : option (string * string) :=
  match s with
  | EmptyString => None
  | String c s1 =>
      if Ascii.eqb c dquote then Some (EmptyString, s1)
      else if Ascii.eqb c backslash then
        match s1 with
        | EmptyString => None
        | String e s2 =>
            if is_simple_escape e then
              cons_lexeme (String c (String e EmptyString)) (lex_string_body s2)
            else if Ascii.eqb e "u" then
              match s2 with
              | String h1 (String h2 (String h3 (String h4 s3))) =>
                  if (is_hex h1 && is_hex h2 && is_hex h3 && is_hex h4)%bool then
                    cons_lexeme
                      (String c (String e (String h1 (String h2 (String h3
                         (String h4 EmptyString))))))
                      (lex_string_body s3)
                  else None
              | _ => None
              end
            else None
        end
      else if is_control c then None
      else cons_lexeme (String c EmptyString) (lex_string_body s1)
  end.

(** The longest prefix of digits. *)
Fixpoint span_digits (s : string) : string * string :=
  match s with
  | String c s' =>
      if is_digit c then
        let (d, r) := span_digits s' in (String c d, r)
      else (EmptyString, s)
  | EmptyString => (EmptyString, EmptyString)
  end.

(** int = zero / ( digit1-9 *DIGIT ) *)
Definition lex_int (s : string) : option (string * string) :=
  match s with
  | String c s' =>
      if Ascii.eqb c "0" then Some (String c EmptyString, s')
      else if is_digit c then
        let (d, r) := span_digits s' in Some (String c d, r)
      else None
  | EmptyString => None
  end.

(** One or more digits. *)
Definition lex_digits1 (s : string) : option (string * string) :=
  match span_digits s with
  | (EmptyString, _) => None
  | (d, r) => Some (d, r)
  end.

(** frac = decimal-point 1*DIGIT, optional *)
Definition lex_frac (s : string) : option (string * string) :=
  match s with
  | String c s' =>
      if Ascii.eqb c "." then cons_lexeme (String c EmptyString) (lex_digits1 s')
      else Some (EmptyString, s)
  | EmptyString => Some (EmptyString, s)
  end.

(** exp = e [ minus / plus ] 1*DIGIT, optional *)
Definition lex_exp (s : string) : option (string * string) :=
  match s with
  | String c s' =>
      if (Ascii.eqb c "e" || Ascii.eqb c "E")%bool then
        match s' with
        | String g s'' =>
            if (Ascii.eqb g "+" || Ascii.eqb g "-")%bool then
              cons_lexeme (String c (String g EmptyString)) (lex_digits1 s'')
            else cons_lexeme (String c EmptyString) (lex_digits1 s')
        | EmptyString => None
        end
      else Some (EmptyString, s)
  | EmptyString => Some (EmptyString, s)
  end.

(** number = [ minus ] int [ frac ] [ exp ] *)
Definition lex_unsigned (s : string) : option (string * string) :=
  match lex_int s with
  | Some (i, s1) =>
      match lex_frac s1 with
      | Some (f, s2) =>
          match lex_exp s2 with
          | Some (e, s3) => Some (i +:+ f +:+ e, s3)
          | None => None
          end
      | None => None
      end
  | None => None
  end.

Definition lex_number (s : string) : option (string * string) :=
  match s with
  | String c s' =>
      if Ascii.eqb c "-" then cons_lexeme (String c EmptyString) (lex_unsigned s')
      else lex_unsigned s
  | EmptyString => None
  end.

(** [expect_word w s]: [s] with the prefix [w] removed. *)
Fixpoint expect_word (w s : string) : option string :=
  match w with
  | EmptyString => Some s
  | String c w' =>
      match s with
      | String d s' => if Ascii.eqb c d then expect_word w' s' else None
      | EmptyString => None
      end
  end.

Definition with_value (v : json) (r : option string) : option (json * string) :=
  match r with
  | Some rest => Some (v, rest)
  | None => None
  end.

(** Recursive descent.  Every recursive call is made on a strictly shorter
    text, so [fuel] above the length of the text is never used up. *)
Fixpoint parse_value (fuel : nat) (s : string) : option (json * string) :=
  match fuel with
  | O => None
  | S fuel' =>
      match skip_ws s with
      | EmptyString => None
      | String c s1 =>
          if Ascii.eqb c "{" then
            match skip_ws s1 with
            | EmptyString => None
            | String c1 s2 =>
                if Ascii.eqb c1 "}" then Some (JObject [], s2)
                else
                  match parse_members fuel' s1 with
                  | Some (kvs, rest) => Some (JObject kvs, rest)
                  | None => None
                  end
            end
          else if Ascii.eqb c "[" then
            match skip_ws s1 with
            | EmptyString => None
            | String c1 s2 =>
                if Ascii.eqb c1 "]" then Some (JArray [], s2)
                else
                  match parse_elements fuel' s1 with
                  | Some (vs, rest) => Some (JArray vs, rest)
                  | None => None
                  end
            end
          else if Ascii.eqb c dquote then
            match lex_string_body s1 with
            | Some (raw, rest) => Some (JString raw, rest)
            | None => None
            end
          else if Ascii.eqb c "t" then with_value (JBool true) (expect_word "rue" s1)
          else if Ascii.eqb c "f" then with_value (JBool false) (expect_word "alse" s1)
          else if Ascii.eqb c "n" then with_value JNull (expect_word "ull" s1)
          else
            match lex_number (String c s1) with
            | Some (lx, rest) => Some (JNumber lx, rest)
            | None => None
            end
      end
  end

with parse_members (fuel : nat) (s : string)
  : option (list (string * json) * string) :=
  match fuel with
  | O => None
  | S fuel' =>
      match skip_ws s with
      | EmptyString => None
      | String c s1 =>
          if Ascii.eqb c dquote then
            match lex_string_body s1 with
            | None => None
            | Some (key, s2) =>
                match skip_ws s2 with
                | EmptyString => None
                | String c2 s3 =>
                    if Ascii.eqb c2 ":" then
                      match parse_value fuel' s3 with
                      | None => None
                      | Some (v, s4) =>
                          match skip_ws s4 with
                          | EmptyString => None
                          | String c4 s5 =>
                              if Ascii.eqb c4 "," then
                                match parse_members fuel' s5 with
                                | Some (kvs, rest) => Some ((key, v) :: kvs, rest)
                                | None => None
                                end
                              else if Ascii.eqb c4 "}" then Some ([(key, v)], s5)
                              else None
                          end
                      end
                    else None
                end
            end
          else None
      end
  end

with parse_elements (fuel : nat) (s : string) : option (list json * string) :=
  match fuel with
  | O => None
  | S fuel' =>
      match parse_value fuel' s with
      | None => None
      | Some (v, s1) =>
          match skip_ws s1 with
          | EmptyString => None
          | String c s2 =>
              if Ascii.eqb c "," then
                match parse_elements fuel' s2 with
                | Some (vs, rest) => Some (v :: vs, rest)
                | None => None
                end
              else if Ascii.eqb c "]" then Some ([v], s2)
              else None
          end
      end
  end.

(** A whole text: one value, then nothing but white space. *)
Definition parse_json (s : string) : option json :=
  match parse_value (S (String.length s)) s with
  | Some (v, rest) =>
      match skip_ws rest with
      | EmptyString => Some v
      | String _ _ => None
      end
  | None => None
  end.

(** [s] is a JSON text: some amount of fuel reads it to the end. *)
Definition valid_json (s : string) : Prop :=
  exists fuel v rest,
    parse_value fuel s = Some (v, rest) /\ skip_ws rest = EmptyString.

(** The member of an object stored under [key] (the first one). *)
Fixpoint member (key : string) (kvs : list (string * json)) : option json :=
  match kvs with
  | [] => None
  | (k, v) :: kvs' => if String.eqb k key then Some v else member key kvs'
  end.

Definition field (key : string) (v : json) : option json :=
  match v with
  | JObject kvs => member key kvs
  | _ => None
  end.

End Json.

(* ===================================================================== *)
(** * Profiler: the data model and operations of [namespace Profiler]      *)
(* ===================================================================== *)

Module Profiler.
Import Text.

(** [struct Result].  [start] and [end] are [long long], [thread_id] is
    [uint32_t]. *)
Record Result : Type := mkResult
  { name : string; start : Z; end_ : Z; thread_id : Z }.

(** [struct Session]. *)
Record Session : Type := mkSession { Name : string }.

(** [std::ofstream]: the file it is attached to (if any), the characters
    inserted but not yet flushed, and whether an error bit is set (a stream
    with an error bit set ignores insertions and flushes). *)
Record ofstream : Type := mkStream
  { opened : option string; pending : string; bad : bool }.

(** The storage of the member [bool first_record].  [Unassigned bits]: no assignment
    has been executed yet, and the storage happens to hold [bits] (anything
    for an automatic or heap object, [false] for the zero-initialised static
    object of [Get]).  [Assigned b]: the last assignment stored [b]. *)
Inductive Flag : Type :=
| Unassigned (bits : bool)
| Assigned (b : bool).

Definition flag_value (f : Flag) : bool :=
  match f with
  | Unassigned bits => bits
  | Assigned b => b
  end.

Definition is_assigned (f : Flag) : bool :=
  match f with
  | Unassigned _ => false
  | Assigned _ => true
  end.

(** [class Recorder]: its four data members ([mutex]: whether it is held). *)
Record Recorder : Type := mkRecorder
  { current_session : option Session;
    mutex : bool;
    output_stream : ofstream;
    first_record : Flag }.

(** [Recorder::Recorder()]: the member initialiser list names
    [current_session] only; the mutex and the stream are default
    constructed, [first_record] is left as the storage holds it. *)
Definition Recorder_ctor (bits : bool) : Recorder :=
  {| current_session := None;
     mutex := false;
     output_stream := {| opened := None; pending := EmptyString; bad := false |};
     first_record := Unassigned bits |}.

(** The process as far as the recorder is concerned: the instance of [Get],
    the content of the files, which paths can be opened for writing, and the
    lines sent to the log stream (the source writes them to [std::out]). *)
Record World : Type := mkWorld
  { instance : Recorder;
    files : gmap string string;
    openable : string -> bool;
    out : list string }.

Definition with_instance (r : Recorder) (w : World) : World :=
  {| instance := r; files := files w; openable := openable w; out := out w |}.

Definition with_files (fs : gmap string string) (w : World) : World :=
  {| instance := instance w; files := fs; openable := openable w; out := out w |}.

Definition with_out (o : list string) (w : World) : World :=
  {| instance := instance w; files := files w; openable := openable w; out := o |}.

Definition with_session (s : option Session) (r : Recorder) : Recorder :=
  {| current_session := s; mutex := mutex r;
     output_stream := output_stream r; first_record := first_record r |}.

Definition with_mutex (m : bool) (r : Recorder) : Recorder :=
  {| current_session := current_session r; mutex := m;
     output_stream := output_stream r; first_record := first_record r |}.

Definition with_stream (s : ofstream) (r : Recorder) : Recorder :=
  {| current_session := current_session r; mutex := mutex r;
     output_stream := s; first_record := first_record r |}.

Definition with_first_record (f : Flag) (r : Recorder) : Recorder :=
  {| current_session := current_session r; mutex := mutex r;
     output_stream := output_stream r; first_record := f |}.

(** [static Recorder& Get()]: the world at the first call, with the
    function-local static zero-initialised and then constructed. *)
Definition Get_initial (fs : gmap string string) (can_open : string -> bool) : World :=
  {| instance := Recorder_ctor false; files := fs; openable := can_open; out := [] |}.

(** ** Commands *)

(** A call either returns, or blocks for ever in the state given. *)
Inductive Outcome : Type :=
| Returns (w : World)
| Deadlock (w : World).

Definition state_of (o : Outcome) : World :=
  match o with
  | Returns w => w
  | Deadlock w => w
  end.

Definition Cmd : Type := World -> Outcome.

Definition skip : Cmd := Returns.

Definition seq (c1 c2 : Cmd) : Cmd :=
  fun w =>
    match c1 w with
    | Returns w' => c2 w'
    | Deadlock w' => Deadlock w'
    end.

Declare Scope cmd_scope.
Delimit Scope cmd_scope with cmd.
Bind Scope cmd_scope with Cmd.
Notation "c1 ;; c2" := (seq c1%cmd c2%cmd)
  (at level 100, c2 at level 200, right associativity) : cmd_scope.

Definition modify (f : World -> World) : Cmd := fun w => Returns (f w).

Definition modify_instance (f : Recorder -> Recorder) : Cmd :=
  modify (fun w => with_instance (f (instance w)) w).

Definition ifte (cond : World -> bool) (c1 c2 : Cmd) : Cmd :=
  fun w => if cond w then c1 w else c2 w.

Definition when (cond : World -> bool) (c : Cmd) : Cmd := ifte cond c skip.

(** ** The mutex *)

(** [std::mutex::lock]: the mutex is not recursive; a thread that locks a
    mutex it already holds never gets it. *)
Definition lock : Cmd :=
  fun w =>
    if mutex (instance w) then Deadlock w
    else Returns (with_instance (with_mutex true (instance w)) w).

Definition unlock : Cmd := modify_instance (with_mutex false).

(** [std::lock_guard<std::mutex> lock(mutex);] at the head of a block. *)
Definition lock_guard (body : Cmd) : Cmd := (lock ;; body ;; unlock)%cmd.

(** ** The output stream *)

Definition file_content (fs : gmap string string) (p : string) : string :=
  default EmptyString (fs !! p).

(** [output_stream.open(filepath)]: fails when the stream is already
    attached to a file or the file cannot be opened; success truncates the
    file and clears the error bits. *)
Definition output_stream_open (filepath : string) : Cmd :=
  modify (fun w =>
    let s := output_stream (instance w) in
    match opened s with
    | Some _ =>
        with_instance
          (with_stream {| opened := opened s; pending := pending s; bad := true |}
             (instance w)) w
    | None =>
        if openable w filepath then
          with_files (<[filepath := EmptyString]> (files w))
            (with_instance
               (with_stream
                  {| opened := Some filepath; pending := EmptyString; bad := false |}
                  (instance w)) w)
        else
          with_instance
            (with_stream {| opened := None; pending := pending s; bad := true |}
               (instance w)) w
    end).

(** [output_stream.is_open()] *)
Definition output_stream_is_open (w : World) : bool :=
  match opened (output_stream (instance w)) with
  | Some _ => true
  | None => false
  end.

(** [output_stream << text] *)
Definition output_stream_insert (text : string) : Cmd :=
  modify_instance (fun r =>
    let s := output_stream r in
    if bad s then r
    else
      match opened s with
      | Some p =>
          with_stream {| opened := Some p; pending := pending s +:+ text; bad := false |} r
      | None =>
          with_stream {| opened := None; pending := pending s; bad := true |} r
      end).

(** [output_stream.flush()] *)
Definition output_stream_flush : Cmd :=
  modify (fun w =>
    let s := output_stream (instance w) in
    if bad s then w
    else
      match opened s with
      | Some p =>
          with_files (<[p := file_content (files w) p +:+ pending s]> (files w))
            (with_instance
               (with_stream {| opened := Some p; pending := EmptyString; bad := false |}
                  (instance w)) w)
      | None => w
      end).

(** [output_stream.close()]: what is pending is written out first. *)
Definition output_stream_close : Cmd :=
  modify (fun w =>
    let s := output_stream (instance w) in
    match opened s with
    | Some p =>
        with_files (<[p := file_content (files w) p +:+ pending s]> (files w))
          (with_instance
             (with_stream {| opened := None; pending := EmptyString; bad := bad s |}
                (instance w)) w)
    | None =>
        with_instance
          (with_stream {| opened := None; pending := pending s; bad := true |}
             (instance w)) w
    end).

(** [std::out << ... << std::endl] *)
Definition log (line : string) : Cmd :=
  modify (fun w => with_out (out w ++ [line]) w).

(** ** [Recorder] *)

Definition header : string :=
  Eval cbv in lit "{'otherData': {},'traceEvents':[".

Definition footer : string := "]}".

(** [if (current_session)] *)
Definition has_session (w : World) : bool :=
  match current_session (instance w) with
  | Some _ => true
  | None => false
  end.

(** [Recorder::WriteHeader] and [Recorder::WriteFooter] (lines 116-126):
    an insertion and a flush each. *)
Definition WriteHeader : Cmd :=
  (output_stream_insert header ;; output_stream_flush)%cmd.

Definition WriteFooter : Cmd :=
  (output_stream_insert footer ;; output_stream_flush)%cmd.

(** [Recorder::EndSession] (lines 72-82). *)
Definition EndSession : Cmd :=
  lock_guard
    (when has_session
       (WriteFooter ;;
        output_stream_close ;;
        modify_instance (with_session None))%cmd).

(** The two lines [BeginSession] can log. *)
Definition already_open_message (name open_name : string) : string :=
  str [ "Instrumentor::BeginSession("; name; ") when session "; open_name;
        " already open." ]%string.

Definition could_not_open_message (filepath : string) : string :=
  str [ "Instrumentor could not open results file "; filepath; "." ]%string.

(** [Recorder::BeginSession] (lines 46-70).  With a session open it calls
    [EndSession] while it still holds the mutex. *)
Definition BeginSession (name filepath : string) : Cmd :=
  lock_guard
    (modify_instance (with_first_record (Assigned true)) ;;
     when has_session
       ((fun w =>
           match current_session (instance w) with
           | Some s => log (already_open_message name (Name s)) w
           | None => skip w
           end) ;;
        EndSession) ;;
     output_stream_open filepath ;;
     ifte output_stream_is_open
       (modify_instance (with_session (Some {| Name := name |})) ;;
        WriteHeader)
       (log (could_not_open_message filepath)))%cmd.

(** The string literals of [WriteRecord]. *)
Definition cat_literal : string := Eval cbv in lit "'cat':'function',".
Definition dur_literal : string := Eval cbv in lit "'dur':".
Definition name_literal : string := Eval cbv in lit "'name':'".
Definition name_end_literal : string := Eval cbv in lit "',".
Definition ph_literal : string := Eval cbv in lit "'ph':'X',".
Definition pid_literal : string := Eval cbv in lit "'pid':0,".
Definition tid_literal : string := Eval cbv in lit "'tid':".
Definition ts_literal : string := Eval cbv in lit "'ts':".

(** The text [WriteRecord] builds in its local string stream; [first] is
    the value read from [first_record].  The precision and the fixed
    notation set on the stream concern floating-point output only; the
    duration is a [long long] difference, [start] a [long long] and
    [thread_id] a [uint32_t], all printed in decimal. *)
Definition json_of (first : bool) (result : Result) : string :=
  let name := replace dquote squote (name result) in
  str [ (if first then "{" else ",{")%string;
        cat_literal;
        dur_literal; put_integer (wrap_long_long (end_ result - start result)); ","%string;
        name_literal; name; name_end_literal;
        ph_literal;
        pid_literal;
        tid_literal; put_integer (thread_id result); ","%string;
        ts_literal; put_integer (start result);
        "}"%string ].

(** [Recorder::WriteRecord] (lines 84-114).  The flag is read, and cleared
    when set, before the mutex is taken and whether or not a session is
    active. *)
Definition WriteRecord (result : Result) : Cmd :=
  fun w =>
    let first := flag_value (first_record (instance w)) in
    let json := json_of first result in
    ((if first then modify_instance (with_first_record (Assigned false)) else skip) ;;
     lock_guard
       (when has_session
          (output_stream_insert json ;;
           output_stream_flush)))%cmd w.

(** The public operations as data, and a sequence of calls made one after
    the other by one thread. *)
Inductive Call : Type :=
| CallBeginSession (name filepath : string)
| CallEndSession
| CallWriteRecord (result : Result).

Definition call (c : Call) : Cmd :=
  match c with
  | CallBeginSession name filepath => BeginSession name filepath
  | CallEndSession => EndSession
  | CallWriteRecord result => WriteRecord result
  end.

Fixpoint run (cs : list Call) : Cmd :=
  match cs with
  | [] => skip
  | c :: cs' => (call c ;; run cs')%cmd
  end.

(** ** [Timer] *)

(** [class Timer]: [name], [stopped], [start_timepoint] (in ticks of
    [high_resolution_clock]). *)
Record Timer : Type := mkTimer
  { timer_name : string; stopped : bool; start_timepoint : Z }.

(** What a member function of [Timer] finds around it: the resolution of
    the clock, the reading of [now()], and the hash of the calling thread's
    id (a [size_t]). *)
Record Reading : Type := mkReading
  { ticks_per_microsecond : Z; now : Z; thread_hash : Z }.

(** [Timer::Timer(setName)] *)
Definition Timer_ctor (setName : string) (rd : Reading) : Timer :=
  {| timer_name := setName; stopped := false; start_timepoint := now rd |}.

(** [time_point_cast<microseconds>(tp).time_since_epoch().count()]:
    integer division, rounding towards zero. *)
Definition microseconds (rd : Reading) (tp : Z) : Z :=
  Z.quot tp (ticks_per_microsecond rd).

(** [Timer::Stop()]: the timer afterwards, and the calls made on
    [Recorder::Get()]. *)
Definition Stop (rd : Reading) (t : Timer) : Timer * list Call :=
  let end_timepoint := now rd in
  let start := microseconds rd (start_timepoint t) in
  let end_ := microseconds rd end_timepoint in
  let thread_id := to_uint32 (thread_hash rd) in
  ({| timer_name := timer_name t; stopped := true;
      start_timepoint := start_timepoint t |},
   [CallWriteRecord
      {| name := timer_name t; start := start; end_ := end_; thread_id := thread_id |}]).

(** [Timer::~Timer()] *)
Definition Timer_dtor (rd : Reading) (t : Timer) : list Call :=
  if negb (stopped t) then snd (Stop rd t) else [].

(** Explicit calls of [Stop], one per reading. *)
Fixpoint Stops (rds : list Reading) (t : Timer) : Timer * list Call :=
  match rds with
  | [] => (t, [])
  | rd :: rds' =>
      let (t1, calls1) := Stop rd t in
      let (t2, calls2) := Stops rds' t1 in
      (t2, calls1 ++ calls2)
  end.

(** A whole life: construction, the explicit calls of [Stop], destruction;
    the result is the list of calls made on the recorder. *)
Definition lifetime (setName : string) (born : Reading) (explicit : list Reading)
    (died : Reading) : list Call :=
  let (t, calls) := Stops explicit (Timer_ctor setName born) in
  calls ++ Timer_dtor died t.

(** ** The macros *)

(** [PROFILE_SCOPE(name)] (line 193) at the head of a block declares a
    [Timer] local to the block: it is constructed there and destroyed when
    the block is left, after the calls [body] that the rest of the block makes
    on the recorder.  [PROFILE_FUNCTION()] (line 194) is the same with the
    signature of the enclosing function for a name. *)
Definition PROFILE_SCOPE (name : string) (born : Reading) (body : list Call)
    (died : Reading) : list Call :=
  body ++ Timer_dtor died (Timer_ctor name born).

(** [PROFILE_BEGIN_SESSION(name, filepath)] ... [PROFILE_END_SESSION()]
    (lines 191-192) around the calls [body]. *)
Definition PROFILE_SESSION (name filepath : string) (body : list Call) : list Call :=
  CallBeginSession name filepath :: body ++ [CallEndSession].

End Profiler.

(* ===================================================================== *)
(** * Vocabulary of the statements                                        *)
(* ===================================================================== *)

Import Text Json Profiler.

#[local] Arguments String.append !_ _ / : simpl nomatch.

(** ** States between two calls *)

(** A session is being recorded under [name] into [filepath]: the stream is
    attached and sound, nothing is pending, the mutex is free. *)
Definition recording (name filepath : string) (first : Flag)
    (fs : gmap string string) (can_open : string -> bool) (lg : list string) : World :=
  {| instance :=
       {| current_session := Some {| Name := name |};
          mutex := false;
          output_stream :=
            {| opened := Some filepath; pending := EmptyString; bad := false |};
          first_record := first |};
     files := fs; openable := can_open; out := lg |}.

(** No session, the stream detached, the mutex free. *)
Definition idle (pend : string) (err : bool) (first : Flag)
    (fs : gmap string string) (can_open : string -> bool) (lg : list string) : World :=
  {| instance :=
       {| current_session := None;
          mutex := false;
          output_stream := {| opened := None; pending := pend; bad := err |};
          first_record := first |};
     files := fs; openable := can_open; out := lg |}.

(** The invariant of section 3 of the specification. *)
Definition stream_open_iff_session (w : World) : Prop :=
  output_stream_is_open w = has_session w.

(** What holds between two calls of a sequential client. *)
Definition quiescent (w : World) : Prop :=
  mutex (instance w) = false /\ stream_open_iff_session w.

Ltac unfold_cmds :=
  cbv beta iota zeta delta
    [ BeginSession EndSession WriteRecord WriteHeader WriteFooter
      lock_guard lock unlock seq skip modify modify_instance ifte when log
      output_stream_open output_stream_is_open output_stream_insert
      output_stream_flush output_stream_close has_session
      with_instance with_files with_out with_session with_mutex with_stream
      with_first_record instance files openable out
      current_session mutex output_stream first_record opened pending bad
      flag_value Name recording idle call state_of ].

Ltac unfold_cmds_in H :=
  cbv beta iota zeta delta
    [ BeginSession EndSession WriteRecord WriteHeader WriteFooter
      lock_guard lock unlock seq skip modify modify_instance ifte when log
      output_stream_open output_stream_is_open output_stream_insert
      output_stream_flush output_stream_close has_session
      with_instance with_files with_out with_session with_mutex with_stream
      with_first_record instance files openable out
      current_session mutex output_stream first_record opened pending bad
      flag_value Name recording idle call state_of ] in H.

Ltac destruct_world w :=
  let cs := fresh "cs" in let m := fresh "m" in let o := fresh "o" in
  let pd := fresh "pd" in let b := fresh "b" in let fr := fresh "fr" in
  let fs := fresh "fs" in let op := fresh "op" in let lg := fresh "lg" in
  destruct w as [[cs m [o pd b] fr] fs op lg].

(** The flag after [WriteRecord] has read it: cleared when it was set. *)
Definition after_read (fr : Flag) : Flag :=
  if flag_value fr then Assigned false else fr.

(** ** The text of a session *)

(** The array elements written for the records [rs], the first one with the
    flag reading [first]. *)
Fixpoint events_text (first : bool) (rs : list Result) : string :=
  match rs with
  | [] => EmptyString
  | r :: rs' => json_of first r +:+ events_text false rs'
  end.

(** The file of a session in which the records [rs] were written. *)
Definition document (rs : list Result) : string :=
  header +:+ events_text true rs +:+ footer.

(** Whether the flag is still set after the records [rs]. *)
Definition no_record_yet (rs : list Result) : bool :=
  match rs with
  | [] => true
  | _ :: _ => false
  end.

(** Whether a call opens a file, given which paths can be opened. *)
Definition opens (can_open : string -> bool) (c : Call) : bool :=
  match c with
  | CallBeginSession _ filepath => can_open filepath
  | _ => false
  end.

(** ** Names, numbers and values as the reader sees them *)

(** Characters that stand for themselves inside a JSON string. *)
Definition plain_char (c : ascii) : bool :=
  negb (Ascii.eqb c dquote) && negb (Ascii.eqb c backslash) && negb (is_control c).

Fixpoint plain (s : string) : bool :=
  match s with
  | EmptyString => true
  | String c s' => plain_char c && plain s'
  end.

(** Names for which replacing the double quotes is escaping enough: no
    backslash, no control character. *)
Definition safe_char (c : ascii) : bool :=
  negb (Ascii.eqb c backslash) && negb (is_control c).

Fixpoint safe_name (s : string) : bool :=
  match s with
  | EmptyString => true
  | String c s' => safe_char c && safe_name s'
  end.

(** Characters after which a number is over. *)
Definition ends_number (c : ascii) : bool :=
  negb (is_digit c) && negb (Ascii.eqb c ".")
  && negb (Ascii.eqb c "e") && negb (Ascii.eqb c "E").

(** Decimal numerals as the standard library prints a [positive]: not empty,
    no leading zero. *)
Definition canonical (d : Decimal.uint) : Prop :=
  match d with
  | Decimal.Nil => False
  | Decimal.D0 Decimal.Nil => True
  | Decimal.D0 _ => False
  | _ => True
  end.

(** The value read back from the text written for one record. *)
Definition event_of (r : Result) : json :=
  JObject
    [ ("cat", JString "function");
      ("dur", JNumber (put_integer (wrap_long_long (end_ r - start r))));
      ("name", JString (replace dquote squote (name r)));
      ("ph", JString "X");
      ("pid", JNumber "0");
      ("tid", JNumber (put_integer (thread_id r)));
      ("ts", JNumber (put_integer (start r))) ].

(** The value read back from the file of a session. *)
Definition trace_of (rs : list Result) : json :=
  JObject [ ("otherData", JObject []); ("traceEvents", JArray (map event_of rs)) ].

(** A number starts with a digit or a minus sign. *)
Definition starts_number (c : ascii) : bool := is_digit c || Ascii.eqb c "-".

(** A member [key : value] of an object, and a string value, as text. *)
Definition member_text (key value_and_rest : string) : string :=
  String dquote (key +:+ String dquote (String ":" value_and_rest)).

Definition string_text (s rest : string) : string :=
  String dquote (s +:+ String dquote rest).

(** The text of one array element followed by [rest], with the insertions
    of [WriteRecord] regrouped member by member. *)
Definition event_text (r : Result) (rest : string) : string :=
  String "{"
   (member_text "cat" (string_text "function" (String ","
   (member_text "dur"
      (put_integer (wrap_long_long (end_ r - start r)) +:+ String ","
   (member_text "name" (string_text (replace dquote squote (name r)) (String ","
   (member_text "ph" (string_text "X" (String ","
   (member_text "pid" (put_integer 0 +:+ String ","
   (member_text "tid" (put_integer (thread_id r) +:+ String ","
   (member_text "ts" (put_integer (start r) +:+ String "}" rest))))))))))))))))).

(** All the records of a session have names that need no further escaping. *)
Definition safe_records (rs : list Result) : Prop :=
  Forall (fun r => safe_name (name r) = true) rs.

(** Array elements separated by commas. *)
Fixpoint join_commas (xs : list string) : string :=
  match xs with
  | [] => EmptyString
  | [x] => x
  | x :: xs' => x +:+ String "," (join_commas xs')
  end.

(** ** The scenarios *)

(** A record whose name is one backslash. *)
Definition backslash_record : Result :=
  {| name := "\"; start := 1000; end_ := 1500; thread_id := 7 |}.

(** The record and the expected file of the scenario of section 8. *)
Definition scenario_record : Result :=
  {| name := "A"; start := 1000; end_ := 1500; thread_id := 7 |}.

Definition scenario_file : string :=
  Eval cbv in
    lit "{'otherData': {},'traceEvents':[{'cat':'function','dur':500,'name':'A','ph':'X','pid':0,'tid':7,'ts':1000}]}".

(** The name made of Foo, a double quote and Bar. *)
Definition quoted_name : string := "Foo" +:+ String dquote "Bar".

Definition quoted_record : Result :=
  {| name := quoted_name; start := 0; end_ := 1; thread_id := 1 |}.

(** ** Further vocabulary *)

(** A call of [BeginSession] made while a session is active. *)
Definition begins_over_session (c : Call) (w : World) : bool :=
  match c with
  | CallBeginSession _ _ => has_session w
  | _ => false
  end.

(** The line [BeginSession] logs, if any, when it is called between two
    calls with the file name [filepath]. *)
Definition BeginSession_log (name filepath : string) (w : World) : list string :=
  match current_session (instance w) with
  | Some s => [already_open_message name (Name s)]
  | None => if openable w filepath then [] else [could_not_open_message filepath]
  end.

(** The range of [long long]. *)
Definition in_long_long (z : Z) : Prop := - 2 ^ 63 <= z < 2 ^ 63.

(** Names without a double quote. *)
Fixpoint quote_free (s : string) : bool :=
  match s with
  | EmptyString => true
  | String c s' => negb (Ascii.eqb c dquote) && quote_free s'
  end.

(** Reading an integer back from its decimal digits. *)
Definition read_integer (lexeme : string) : option Z :=
  option_map Z.of_int (NilZero.int_of_string lexeme).

Definition number_member (key : string) (v : json) : option Z :=
  match field key v with
  | Some (JNumber lexeme) => read_integer lexeme
  | _ => None
  end.

Definition string_member (key : string) (v : json) : option string :=
  match field key v with
  | Some (JString raw) => Some raw
  | _ => None
  end.

(** The record a trace viewer reads from one event: the end is the time
    stamp plus the duration. *)
Definition decode_event (v : json) : option Result :=
  match string_member "name" v, number_member "ts" v,
        number_member "dur" v, number_member "tid" v with
  | Some n, Some ts, Some dur, Some tid =>
      Some {| name := n; start := ts; end_ := ts + dur; thread_id := tid |}
  | _, _, _, _ => None
  end.

Fixpoint decode_events (vs : list json) : option (list Result) :=
  match vs with
  | [] => Some []
  | v :: vs' =>
      match decode_event v, decode_events vs' with
      | Some r, Some rs => Some (r :: rs)
      | _, _ => None
      end
  end.

(** The records of a trace file. *)
Definition decode_trace (text : string) : option (list Result) :=
  match parse_json text with
  | Some v =>
      match field "traceEvents" v with
      | Some (JArray vs) => decode_events vs
      | _ => None
      end
  | None => None
  end.

(** Records that are written without loss: the name needs no escaping and
    holds no double quote, and the duration does not overflow. *)
Definition lossless (r : Result) : Prop :=
  safe_name (name r) = true /\ quote_free (name r) = true
  /\ in_long_long (end_ r - start r).

(** Two readings of one clock. *)
Definition same_clock (rd1 rd2 : Reading) : Prop :=
  ticks_per_microsecond rd1 = ticks_per_microsecond rd2.

(** The record [Stop] builds. *)
Definition Stop_record (rd : Reading) (t : Timer) : Result :=
  {| name := timer_name t;
     start := microseconds rd (start_timepoint t);
     end_ := microseconds rd (now rd);
     thread_id := to_uint32 (thread_hash rd) |}.

(** One level of the reader, with the recursive calls as parameters: the
    bodies of [parse_value], [parse_members] and [parse_elements]. *)
Definition value_step
    (members : string -> option (list (string * json) * string))
    (elements : string -> option (list json * string))
    (s : string) : option (json * string) :=
  match skip_ws s with
  | EmptyString => None
  | String c s1 =>
      if Ascii.eqb c "{" then
        match skip_ws s1 with
        | EmptyString => None
        | String c1 s2 =>
            if Ascii.eqb c1 "}" then Some (JObject [], s2)
            else
              match members s1 with
              | Some (kvs, rest) => Some (JObject kvs, rest)
              | None => None
              end
        end
      else if Ascii.eqb c "[" then
        match skip_ws s1 with
        | EmptyString => None
        | String c1 s2 =>
            if Ascii.eqb c1 "]" then Some (JArray [], s2)
            else
              match elements s1 with
              | Some (vs, rest) => Some (JArray vs, rest)
              | None => None
              end
        end
      else if Ascii.eqb c dquote then
        match lex_string_body s1 with
        | Some (raw, rest) => Some (JString raw, rest)
        | None => None
        end
      else if Ascii.eqb c "t" then with_value (JBool true) (expect_word "rue" s1)
      else if Ascii.eqb c "f" then with_value (JBool false) (expect_word "alse" s1)
      else if Ascii.eqb c "n" then with_value JNull (expect_word "ull" s1)
      else
        match lex_number (String c s1) with
        | Some (lx, rest) => Some (JNumber lx, rest)
        | None => None
        end
  end.

Definition members_step
    (value : string -> option (json * string))
    (members : string -> option (list (string * json) * string))
    (s : string) : option (list (string * json) * string) :=
  match skip_ws s with
  | EmptyString => None
  | String c s1 =>
      if Ascii.eqb c dquote then
        match lex_string_body s1 with
        | None => None
        | Some (key, s2) =>
            match skip_ws s2 with
            | EmptyString => None
            | String c2 s3 =>
                if Ascii.eqb c2 ":" then
                  match value s3 with
                  | None => None
                  | Some (v, s4) =>
                      match skip_ws s4 with
                      | EmptyString => None
                      | String c4 s5 =>
                          if Ascii.eqb c4 "," then
                            match members s5 with
                            | Some (kvs, rest) => Some ((key, v) :: kvs, rest)
                            | None => None
                            end
                          else if Ascii.eqb c4 "}" then Some ([(key, v)], s5)
                          else None
                      end
                  end
                else None
            end
        end
      else None
  end.

Definition elements_step
    (value : string -> option (json * string))
    (elements : string -> option (list json * string))
    (s : string) : option (list json * string) :=
  match value s with
  | None => None
  | Some (v, s1) =>
      match skip_ws s1 with
      | EmptyString => None
      | String c s2 =>
          if Ascii.eqb c "," then
            match elements s2 with
            | Some (vs, rest) => Some (v :: vs, rest)
            | None => None
            end
          else if Ascii.eqb c "]" then Some ([v], s2)
          else None
      end
  end.

(** [h] succeeds wherever [g] does, with the same result. *)
Definition below {A : Type} (g h : string -> option A) : Prop :=
  forall s r, g s = Some r -> h s = Some r.

(** A call of [WriteRecord] for a record with the given name. *)
Definition records_name (setName : string) (c : Call) : Prop :=
  match c with
  | CallWriteRecord r => name r = setName
  | _ => False
  end.

(** The result of a recursive call carries over from [g] to [h]. *)
Ltac below_call H :=
  match goal with
  | |- match ?g ?x with _ => _ end = Some _ -> _ =>
      let E := fresh "E" in
      destruct (g x) as [[? ?]|] eqn:E; [rewrite (H _ _ E) | discriminate]
  end.

(* ===================================================================== *)
(** * Properties                                                          *)
(* ===================================================================== *)

(** ** Strings *)

Lemma append_nil_r (s : string) : s +:+ EmptyString = s.
Proof. induction s as [|c s IH]; simpl; [reflexivity | now rewrite IH]. Qed.

Lemma append_assoc (a b c : string) : (a +:+ b) +:+ c = a +:+ (b +:+ c).
Proof. induction a as [|x a IH]; simpl; [reflexivity | now rewrite IH]. Qed.

Lemma length_append (a b : string) :
  String.length (a +:+ b) = (String.length a + String.length b)%nat.
Proof. induction a as [|x a IH]; simpl; [reflexivity | now rewrite IH]. Qed.

Lemma replace_length (o n : ascii) (s : string) :
  String.length (replace o n s) = String.length s.
Proof. induction s as [|c s IH]; simpl; [reflexivity | now rewrite IH]. Qed.

Lemma replace_get (o n : ascii) (s : string) (i : nat) :
  String.get i (replace o n s) =
  option_map (fun c => if Ascii.eqb c o then n else c) (String.get i s).
Proof.
  revert i; induction s as [|c s IH]; intros i; simpl; [reflexivity|].
  destruct i as [|i]; [reflexivity | apply IH].
Qed.

(** ** The state a sequential client can observe *)

Lemma quiescent_idle (w : World) :
  quiescent w -> has_session w = false ->
  exists pd b fr, w = idle pd b fr (files w) (openable w) (out w).
Proof.
  destruct_world w. unfold quiescent, stream_open_iff_session.
  unfold_cmds. intros [Hm Hi] Hs.
  destruct cs; [discriminate|]. destruct o; [discriminate|].
  subst m. now exists pd, b, fr.
Qed.

Lemma idle_quiescent pd b fr fs op lg : quiescent (idle pd b fr fs op lg).
Proof. split; reflexivity. Qed.

Lemma recording_quiescent n p fr fs op lg : quiescent (recording n p fr fs op lg).
Proof. split; reflexivity. Qed.

(** ** The three operations, one transition each *)

Lemma BeginSession_idle_opens n p pd b fr fs op lg :
  op p = true ->
  BeginSession n p (idle pd b fr fs op lg) =
  Returns (recording n p (Assigned true) (<[p := header]> fs) op lg).
Proof.
  intros Hop. unfold_cmds. rewrite Hop. unfold_cmds.
  unfold file_content. rewrite lookup_insert_eq. simpl.
  now rewrite insert_insert_eq.
Qed.

Lemma BeginSession_idle_fails n p pd b fr fs op lg :
  op p = false ->
  BeginSession n p (idle pd b fr fs op lg) =
  Returns (idle pd true (Assigned true) fs op (lg ++ [could_not_open_message p])).
Proof. intros Hop. unfold_cmds. rewrite Hop. reflexivity. Qed.

Lemma BeginSession_active_blocks n p (w : World) s :
  current_session (instance w) = Some s ->
  mutex (instance w) = false ->
  BeginSession n p w =
  Deadlock
    (with_out (out w ++ [already_open_message n (Name s)])
       (with_instance
          (with_first_record (Assigned true) (with_mutex true (instance w))) w)).
Proof.
  destruct_world w. unfold_cmds. intros -> ->. reflexivity.
Qed.

Lemma EndSession_recording n p fr fs op lg c :
  fs !! p = Some c ->
  EndSession (recording n p fr fs op lg) =
  Returns (idle EmptyString false fr (<[p := c +:+ footer]> fs) op lg).
Proof.
  intros Hc. unfold_cmds. unfold file_content.
  rewrite lookup_insert_eq, Hc. simpl.
  now rewrite append_nil_r, insert_insert_eq.
Qed.

Lemma EndSession_idle pd b fr fs op lg :
  EndSession (idle pd b fr fs op lg) = Returns (idle pd b fr fs op lg).
Proof. reflexivity. Qed.

Lemma WriteRecord_idle r pd b fr fs op lg :
  WriteRecord r (idle pd b fr fs op lg) =
  Returns (idle pd b (after_read fr) fs op lg).
Proof. unfold_cmds. unfold after_read. destruct fr as [[]|[]]; reflexivity. Qed.

Lemma WriteRecord_recording r n p fr fs op lg c :
  fs !! p = Some c ->
  WriteRecord r (recording n p fr fs op lg) =
  Returns (recording n p (after_read fr)
             (<[p := c +:+ json_of (flag_value fr) r]> fs) op lg).
Proof.
  intros Hc. unfold_cmds. unfold after_read, file_content.
  destruct fr as [[]|[]]; unfold_cmds; rewrite Hc; reflexivity.
Qed.

Lemma run_app (cs1 cs2 : list Call) (w : World) :
  run (cs1 ++ cs2) w =
  match run cs1 w with
  | Returns w' => run cs2 w'
  | Deadlock w' => Deadlock w'
  end.
Proof.
  revert w; induction cs1 as [|c cs1 IH]; intros w; simpl; [reflexivity|].
  unfold seq. destruct (call c w); [apply IH | reflexivity].
Qed.

(** ** A whole session *)

Lemma after_read_assigned (b : bool) : after_read (Assigned b) = Assigned false.
Proof. now destruct b. Qed.

Lemma run_records rs : forall first n p fs op lg c,
  fs !! p = Some c ->
  run (map CallWriteRecord rs) (recording n p (Assigned first) fs op lg) =
  Returns (recording n p (Assigned (first && no_record_yet rs))
             (<[p := c +:+ events_text first rs]> fs) op lg).
Proof.
  induction rs as [|r rs IH]; intros first n p fs op lg c Hc.
  - simpl. rewrite append_nil_r, andb_true_r.
    now rewrite (insert_id fs p c Hc).
  - cbn [map run call]. unfold seq at 1.
    rewrite (WriteRecord_recording r n p (Assigned first) fs op lg c Hc).
    rewrite after_read_assigned.
    rewrite (IH false n p _ op lg (c +:+ json_of first r)) by apply lookup_insert_eq.
    rewrite insert_insert_eq. cbn [flag_value events_text no_record_yet].
    now rewrite andb_false_r, append_assoc.
Qed.

Lemma run_session n p rs pd b fr fs op lg :
  op p = true ->
  run (CallBeginSession n p :: map CallWriteRecord rs ++ [CallEndSession])
      (idle pd b fr fs op lg) =
  Returns (idle EmptyString false (Assigned (no_record_yet rs))
             (<[p := document rs]> fs) op lg).
Proof.
  intros Hop. cbn [run call]. unfold seq at 1.
  rewrite (BeginSession_idle_opens n p pd b fr fs op lg Hop).
  rewrite run_app.
  rewrite (run_records rs true n p _ op lg header) by apply lookup_insert_eq.
  cbn [run call]. unfold seq at 1.
  rewrite (EndSession_recording n p _ _ op lg (header +:+ events_text true rs))
    by apply lookup_insert_eq.
  cbn [skip]. rewrite !insert_insert_eq. unfold document.
  now rewrite append_assoc.
Qed.

Lemma run_idle_without_open cs : forall pd b fr fs op lg,
  Forall (fun c => opens op c = false) cs ->
  exists pd' b' fr' lg',
    run cs (idle pd b fr fs op lg) = Returns (idle pd' b' fr' fs op lg').
Proof.
  induction cs as [|c cs IH]; intros pd b fr fs op lg Hcs.
  - now exists pd, b, fr, lg.
  - inversion Hcs as [|c' cs' Hc Hcs']; subst.
    cbn [run]. unfold seq.
    destruct c as [n p| |r]; cbn [call opens] in *.
    + rewrite (BeginSession_idle_fails n p pd b fr fs op lg Hc). now apply IH.
    + rewrite EndSession_idle. now apply IH.
    + rewrite WriteRecord_idle. now apply IH.
Qed.

(** Every operation keeps the stream open exactly when a session is
    active, in the state it returns as in the state it blocks in. *)
Lemma call_keeps_stream_open_iff_session (c : Call) (w : World) :
  stream_open_iff_session w -> stream_open_iff_session (state_of (call c w)).
Proof.
  destruct_world w. unfold stream_open_iff_session.
  destruct c as [n p| |r]; destruct cs, m, o, b; unfold_cmds;
    intros H; try discriminate H; try reflexivity;
    try (destruct (op p); unfold_cmds; reflexivity);
    destruct fr as [[]|[]]; unfold_cmds; reflexivity.
Qed.

(** A call that returns leaves the mutex as it found it. *)
Lemma call_returns_mutex (c : Call) (w w' : World) :
  call c w = Returns w' -> mutex (instance w') = mutex (instance w).
Proof.
  destruct_world w.
  destruct c as [n p| |r]; destruct cs, m, o, b; unfold_cmds;
    intros H; try discriminate H; try (now inversion H);
    try (destruct (op p); unfold_cmds_in H; now inversion H);
    destruct fr as [[]|[]]; unfold_cmds_in H; try discriminate H; now inversion H.
Qed.

Lemma run_quiescent cs : forall w w',
  quiescent w -> run cs w = Returns w' -> quiescent w'.
Proof.
  induction cs as [|c cs IH]; intros w w' Hq Hrun.
  - cbv [run skip] in Hrun. now inversion Hrun; subst.
  - cbn [run] in Hrun. unfold seq in Hrun.
    destruct (call c w) as [w1|w1] eqn:Hc; [|discriminate].
    apply (IH w1 w'); [|exact Hrun].
    destruct Hq as [Hm Hi]. split.
    + now rewrite (call_returns_mutex c w w1 Hc).
    + generalize (call_keeps_stream_open_iff_session c w Hi).
      now rewrite Hc.
Qed.

Lemma run_keeps_openable cs : forall w,
  openable (state_of (run cs w)) = openable w.
Proof.
  induction cs as [|c cs IH]; intros w; [reflexivity|].
  cbn [run]. unfold seq.
  assert (Hc : openable (state_of (call c w)) = openable w).
  { destruct_world w.
    destruct c as [n p| |r]; destruct cs0, m, o, b; unfold_cmds;
      try reflexivity;
      try (destruct (op p); unfold_cmds; reflexivity);
      destruct fr as [[]|[]]; unfold_cmds; reflexivity. }
  destruct (call c w) as [w1|w1]; cbn [state_of] in *; [|exact Hc].
  now rewrite IH.
Qed.

(** ** Reading back what the recorder writes *)

Lemma plain_replace (s : string) :
  safe_name s = true -> plain (replace dquote squote s) = true.
Proof.
  induction s as [|c s IH]; simpl; [reflexivity|].
  intros H. apply andb_true_iff in H as [Hc Hs].
  rewrite (IH Hs), andb_true_r.
  destruct (Ascii.eqb c dquote) eqn:Hq; [reflexivity|].
  unfold plain_char. rewrite Hq. exact Hc.
Qed.

Lemma lex_string_body_plain (s rest : string) :
  plain s = true ->
  lex_string_body (s +:+ String dquote rest) = Some (s, rest).
Proof.
  induction s as [|c s IH]; simpl; [reflexivity|].
  intros H. apply andb_true_iff in H as [Hc Hs].
  unfold plain_char in Hc.
  apply andb_true_iff in Hc as [Hc Hctl]. apply andb_true_iff in Hc as [Hq Hb].
  apply negb_true_iff in Hq, Hb, Hctl.
  rewrite Hq, Hb, Hctl, (IH Hs). reflexivity.
Qed.

Lemma span_digits_uint (d : Decimal.uint) (c : ascii) (rest : string) :
  is_digit c = false ->
  span_digits (NilEmpty.string_of_uint d +:+ String c rest) =
  (NilEmpty.string_of_uint d, String c rest).
Proof.
  intros Hc. induction d as [|d IH|d IH|d IH|d IH|d IH|d IH|d IH|d IH|d IH|d IH];
    simpl; [now rewrite Hc| | | | | | | | | |]; now rewrite IH.
Qed.

Lemma lex_int_uint (d : Decimal.uint) (c : ascii) (rest : string) :
  canonical d -> is_digit c = false ->
  lex_int (NilEmpty.string_of_uint d +:+ String c rest) =
  Some (NilEmpty.string_of_uint d, String c rest).
Proof.
  intros Hd Hc.
  destruct d as [|d|d|d|d|d|d|d|d|d|d]; simpl in Hd; try contradiction.
  - destruct d; try contradiction. reflexivity.
  - simpl. now rewrite span_digits_uint.
  - simpl. now rewrite span_digits_uint.
  - simpl. now rewrite span_digits_uint.
  - simpl. now rewrite span_digits_uint.
  - simpl. now rewrite span_digits_uint.
  - simpl. now rewrite span_digits_uint.
  - simpl. now rewrite span_digits_uint.
  - simpl. now rewrite span_digits_uint.
  - simpl. now rewrite span_digits_uint.
Qed.

Lemma lex_unsigned_uint (d : Decimal.uint) (c : ascii) (rest : string) :
  canonical d -> ends_number c = true ->
  lex_unsigned (NilEmpty.string_of_uint d +:+ String c rest) =
  Some (NilEmpty.string_of_uint d, String c rest).
Proof.
  intros Hd Hc. unfold ends_number in Hc.
  apply andb_true_iff in Hc as [Hc HE]. apply andb_true_iff in Hc as [Hc He].
  apply andb_true_iff in Hc as [Hdig Hdot].
  apply negb_true_iff in Hdig, Hdot, He, HE.
  unfold lex_unsigned. rewrite (lex_int_uint d c rest Hd Hdig).
  assert (Hfrac : lex_frac (String c rest) = Some (EmptyString, String c rest))
    by (simpl; now rewrite Hdot).
  assert (Hexp : lex_exp (String c rest) = Some (EmptyString, String c rest))
    by (simpl; now rewrite He, HE).
  rewrite Hfrac, Hexp. simpl. now rewrite append_nil_r.
Qed.

Lemma canonical_to_uint (p : positive) : canonical (Pos.to_uint p).
Proof.
  assert (Hn : Decimal.unorm (Pos.to_uint p) = Pos.to_uint p).
  { rewrite <- (Unsigned.to_of (Pos.to_uint p)), Unsigned.of_to. reflexivity. }
  assert (Hz : Decimal.nzhead (Pos.to_uint p) <> Decimal.Nil).
  { intros H. apply unorm_0 in H. rewrite Hn in H.
    exact (Unsigned.to_uint_nonzero p H). }
  rewrite (unorm_nzhead _ Hz) in Hn.
  destruct (Pos.to_uint p) as [|d|d|d|d|d|d|d|d|d|d] eqn:E; simpl;
    try exact I.
  - now apply Hz.
  - exfalso. exact (nzhead_nonzero _ _ Hn).
Qed.

Lemma string_of_uint_canonical (d : Decimal.uint) :
  canonical d -> NilZero.string_of_uint d = NilEmpty.string_of_uint d.
Proof. destruct d; simpl; [contradiction | reflexivity ..]. Qed.

Lemma string_of_uint_head (d : Decimal.uint) :
  canonical d ->
  exists c s, is_digit c = true /\ NilEmpty.string_of_uint d = String c s.
Proof.
  destruct d; simpl; [contradiction | ..]; intros _; eexists _, _;
    (split; [|reflexivity]); reflexivity.
Qed.

Lemma lex_number_digit (c : ascii) (s : string) :
  is_digit c = true -> lex_number (String c s) = lex_unsigned (String c s).
Proof.
  intros Hc. unfold lex_number.
  destruct (Ascii.eqb_spec c "-") as [->|Hne]; [discriminate Hc | reflexivity].
Qed.

Lemma lex_number_put_integer (z : Z) (c : ascii) (rest : string) :
  ends_number c = true ->
  lex_number (put_integer z +:+ String c rest) =
  Some (put_integer z, String c rest).
Proof.
  intros Hc. unfold put_integer.
  destruct z as [|p|p]; cbn [Z.to_int NilZero.string_of_int].
  - apply (lex_unsigned_uint (Decimal.D0 Decimal.Nil) c rest I Hc).
  - rewrite (string_of_uint_canonical _ (canonical_to_uint p)).
    destruct (string_of_uint_head _ (canonical_to_uint p)) as [c0 [s0 [Hd E]]].
    assert (H := lex_unsigned_uint _ c rest (canonical_to_uint p) Hc).
    rewrite E in *. simpl String.append in *.
    now rewrite (lex_number_digit c0 _ Hd).
  - rewrite (string_of_uint_canonical _ (canonical_to_uint p)).
    simpl. now rewrite (lex_unsigned_uint _ c rest (canonical_to_uint p) Hc).
Qed.

Lemma put_integer_head (z : Z) :
  exists c s, starts_number c = true /\ put_integer z = String c s.
Proof.
  unfold put_integer. destruct z as [|p|p]; cbn [Z.to_int NilZero.string_of_int].
  - now exists "0"%char, EmptyString.
  - rewrite (string_of_uint_canonical _ (canonical_to_uint p)).
    destruct (string_of_uint_head _ (canonical_to_uint p)) as [c0 [s0 [Hd E]]].
    exists c0, s0. unfold starts_number. now rewrite Hd.
  - now exists "-"%char, (NilZero.string_of_uint (Pos.to_uint p)).
Qed.

(** ** The parser on the shapes the recorder produces *)

Lemma parse_value_number (f : nat) (c : ascii) (s : string) :
  starts_number c = true ->
  parse_value (S f) (String c s) =
  match lex_number (String c s) with
  | Some (lx, rest) => Some (JNumber lx, rest)
  | None => None
  end.
Proof.
  destruct c as [[] [] [] [] [] [] [] []]; intros H;
    try discriminate H; reflexivity.
Qed.

Lemma parse_value_put_integer (f : nat) (z : Z) (c : ascii) (rest : string) :
  ends_number c = true ->
  parse_value (S f) (put_integer z +:+ String c rest) =
  Some (JNumber (put_integer z), String c rest).
Proof.
  intros Hc. assert (H := lex_number_put_integer z c rest Hc).
  destruct (put_integer_head z) as [c0 [s0 [Hd E]]].
  rewrite E in *. simpl String.append in *.
  now rewrite (parse_value_number f c0 _ Hd), H.
Qed.

Lemma parse_value_string (f : nat) (s rest : string) :
  plain s = true ->
  parse_value (S f) (String dquote (s +:+ String dquote rest)) =
  Some (JString s, rest).
Proof.
  intros Hs. cbn [parse_value]. simpl skip_ws. simpl Ascii.eqb. cbv iota.
  now rewrite (lex_string_body_plain s rest Hs).
Qed.

Lemma parse_value_string_text (f : nat) (s rest : string) :
  plain s = true ->
  parse_value (S f) (string_text s rest) = Some (JString s, rest).
Proof. apply parse_value_string. Qed.

Lemma parse_members_more f key body v body' kvs rest :
  plain key = true ->
  parse_value f body = Some (v, String "," body') ->
  parse_members f body' = Some (kvs, rest) ->
  parse_members (S f) (member_text key body) = Some ((key, v) :: kvs, rest).
Proof.
  intros Hk Hv Hm. unfold member_text.
  cbn [parse_members]. simpl skip_ws. simpl Ascii.eqb. cbv iota.
  rewrite (lex_string_body_plain key _ Hk). simpl skip_ws. simpl Ascii.eqb. cbv iota.
  rewrite Hv. simpl skip_ws. simpl Ascii.eqb. cbv iota.
  now rewrite Hm.
Qed.

Lemma parse_members_last f key body v rest :
  plain key = true ->
  parse_value f body = Some (v, String "}" rest) ->
  parse_members (S f) (member_text key body) = Some ([(key, v)], rest).
Proof.
  intros Hk Hv. unfold member_text.
  cbn [parse_members]. simpl skip_ws. simpl Ascii.eqb. cbv iota.
  rewrite (lex_string_body_plain key _ Hk). simpl skip_ws. simpl Ascii.eqb. cbv iota.
  rewrite Hv. reflexivity.
Qed.

Lemma parse_value_object f key body kvs rest :
  parse_members f (member_text key body) = Some (kvs, rest) ->
  parse_value (S f) (String "{" (member_text key body)) = Some (JObject kvs, rest).
Proof.
  unfold member_text. intros Hm.
  cbn [parse_value]. simpl skip_ws. simpl Ascii.eqb. cbv iota.
  now rewrite Hm.
Qed.

Lemma parse_elements_more f s v s' vs rest :
  parse_value f s = Some (v, String "," s') ->
  parse_elements f s' = Some (vs, rest) ->
  parse_elements (S f) s = Some (v :: vs, rest).
Proof.
  intros Hv He. cbn [parse_elements]. rewrite Hv.
  simpl skip_ws. simpl Ascii.eqb. cbv iota. now rewrite He.
Qed.

Lemma parse_elements_last f s v rest :
  parse_value f s = Some (v, String "]" rest) ->
  parse_elements (S f) s = Some ([v], rest).
Proof. intros Hv. cbn [parse_elements]. now rewrite Hv. Qed.

Lemma parse_value_array f s vs rest :
  parse_elements f (String "{" s) = Some (vs, rest) ->
  parse_value (S f) (String "[" (String "{" s)) = Some (JArray vs, rest).
Proof.
  intros He. cbn [parse_value]. simpl skip_ws. simpl Ascii.eqb. cbv iota.
  now rewrite He.
Qed.

Lemma json_of_first_text (r : Result) (rest : string) :
  json_of true r +:+ rest = event_text r rest.
Proof.
  unfold json_of, event_text, member_text, string_text, str. cbn [fold_right].
  unfold cat_literal, dur_literal, name_literal, name_end_literal, ph_literal,
    pid_literal, tid_literal, ts_literal.
  simpl. repeat (rewrite append_assoc; simpl). reflexivity.
Qed.

Lemma json_of_later (r : Result) : json_of false r = String "," (json_of true r).
Proof. reflexivity. Qed.

Lemma parse_event (f : nat) (r : Result) (rest : string) :
  safe_name (name r) = true ->
  parse_value (9 + f) (event_text r rest) = Some (event_of r, rest).
Proof.
  intros Hsafe. unfold event_text, event_of.
  apply parse_value_object.
  eapply parse_members_more;
    [reflexivity | apply parse_value_string_text; reflexivity |].
  eapply parse_members_more;
    [reflexivity | apply parse_value_put_integer; reflexivity |].
  eapply parse_members_more;
    [reflexivity | apply parse_value_string_text, plain_replace, Hsafe |].
  eapply parse_members_more;
    [reflexivity | apply parse_value_string_text; reflexivity |].
  eapply parse_members_more;
    [reflexivity | apply (parse_value_put_integer _ 0); reflexivity |].
  eapply parse_members_more;
    [reflexivity | apply parse_value_put_integer; reflexivity |].
  eapply parse_members_last;
    [reflexivity | apply parse_value_put_integer; reflexivity].
Qed.

Lemma events_text_later (r : Result) (rs : list Result) :
  events_text false (r :: rs) = String "," (events_text true (r :: rs)).
Proof. reflexivity. Qed.

Lemma parse_events (tail : list Result) : forall (r : Result) (f : nat) (rest : string),
  safe_records (r :: tail) ->
  parse_elements (S (length tail) + 9 + f)
    (events_text true (r :: tail) +:+ String "]" rest) =
  Some (map event_of (r :: tail), rest).
Proof.
  induction tail as [|r' tail IH]; intros r f rest Hsafe;
    inversion Hsafe as [|r0 rs0 Hr Htail]; subst.
  - cbn [events_text]. rewrite append_assoc. cbn [String.append].
    rewrite json_of_first_text.
    change (S (length (@nil Result)) + 9 + f)%nat with (S (9 + f)).
    apply parse_elements_last. apply (parse_event f r _ Hr).
  - change (events_text true (r :: r' :: tail))
      with (json_of true r +:+ events_text false (r' :: tail)).
    rewrite events_text_later, append_assoc. cbn [String.append].
    rewrite json_of_first_text.
    change (map event_of (r :: r' :: tail))
      with (event_of r :: map event_of (r' :: tail)).
    assert (E : (S (length (r' :: tail)) + 9 + f
                 = S (9 + (length (r' :: tail) + f)))%nat) by lia.
    rewrite E.
    apply parse_elements_more
      with (s' := events_text true (r' :: tail) +:+ String "]" rest).
    + apply (parse_event _ r _ Hr).
    + replace (9 + (length (r' :: tail) + f))%nat
        with (S (length tail) + 9 + f)%nat by (simpl; lia).
      apply (IH r' f rest Htail).
Qed.

Lemma document_text (rs : list Result) :
  document rs =
  String "{"
   (member_text "otherData" (String " " (String "{" (String "}" (String ","
   (member_text "traceEvents"
      (String "[" (events_text true rs +:+ String "]" (String "}" EmptyString))))))))).
Proof. reflexivity. Qed.

Lemma json_of_length (b : bool) (r : Result) : (1 <= String.length (json_of b r))%nat.
Proof. destruct b; unfold json_of, str; simpl; lia. Qed.

Lemma events_text_length (rs : list Result) : forall b,
  (length rs <= String.length (events_text b rs))%nat.
Proof.
  induction rs as [|r rs IH]; intros b; simpl; [lia|].
  rewrite length_append. specialize (IH false). pose proof (json_of_length b r). lia.
Qed.

Lemma document_length (rs : list Result) :
  (34 + length rs <= String.length (document rs))%nat.
Proof.
  unfold document. rewrite !length_append.
  pose proof (events_text_length rs true).
  change (String.length header) with 32%nat.
  change (String.length footer) with 2%nat. lia.
Qed.

Lemma events_text_head (r : Result) (rs : list Result) (rest : string) :
  exists s, events_text true (r :: rs) +:+ rest = String "{" s.
Proof. eexists. reflexivity. Qed.

Lemma parse_value_document (rs : list Result) (f : nat) :
  safe_records rs ->
  parse_value (13 + length rs + f) (document rs) = Some (trace_of rs, EmptyString).
Proof.
  intros Hsafe. destruct rs as [|r tail]; [reflexivity|].
  replace (13 + length (r :: tail) + f)%nat
    with (S (S (S (S (S (length tail) + 9 + f)))))%nat by (simpl; lia).
  rewrite document_text. unfold trace_of.
  apply parse_value_object.
  eapply parse_members_more; [reflexivity | reflexivity |].
  eapply parse_members_last; [reflexivity |].
  destruct (events_text_head r tail (String "]" (String "}" EmptyString))) as [s Hs].
  rewrite Hs. apply parse_value_array. rewrite <- Hs.
  apply (parse_events tail r f _ Hsafe).
Qed.

Lemma parse_json_document (rs : list Result) :
  safe_records rs -> parse_json (document rs) = Some (trace_of rs).
Proof.
  intros Hsafe. unfold parse_json.
  pose proof (document_length rs) as Hlen.
  replace (S (String.length (document rs)))
    with (13 + length rs + (S (String.length (document rs)) - 13 - length rs))%nat
    by lia.
  now rewrite (parse_value_document rs _ Hsafe).
Qed.

Lemma events_text_join (rs : list Result) :
  events_text true rs = join_commas (map (json_of true) rs).
Proof.
  induction rs as [|r rs IH]; [reflexivity|].
  destruct rs as [|r' rs].
  - cbn [events_text map join_commas]. apply append_nil_r.
  - change (events_text true (r :: r' :: rs))
      with (json_of true r +:+ events_text false (r' :: rs)).
    rewrite events_text_later, IH. reflexivity.
Qed.

Lemma fresh_is_idle bits fs can_open lg :
  mkWorld (Recorder_ctor bits) fs can_open lg =
  idle EmptyString false (Unassigned bits) fs can_open lg.
Proof. reflexivity. Qed.

(* --------------------------------------------------------------------- *)
(** ** C1 *)

(** C1, as stated, fails: a record whose name is a single backslash is
    written as it is, the backslash then escapes the closing quote of the
    name, and the file of the closed session is not a JSON text, whatever
    fuel the reader is given. *)
Lemma C1_backslash_name_breaks_json :
  exists w' c,
    run [CallBeginSession "T" "out.json"; CallWriteRecord backslash_record;
         CallEndSession]
        (Get_initial ∅ (fun _ => true)) = Returns w'
    /\ files w' !! "out.json" = Some c
    /\ parse_json c = None
    /\ ~ valid_json c.
Proof.
  exists (idle EmptyString false (Assigned false)
            (<["out.json" := document [backslash_record]]> ∅) (fun _ => true) []),
         (document [backslash_record]).
  split; [|split; [|split]].
  - apply (run_session "T" "out.json" [backslash_record]). reflexivity.
  - apply lookup_insert_eq.
  - vm_compute. reflexivity.
  - intros (fuel & v & rest & H & _).
    do 12 (destruct fuel as [|fuel]; [vm_compute in H; discriminate H|]).
    vm_compute in H. discriminate H.
Qed.

(** C1 (amended): take any sequence of calls made on a freshly constructed
    recorder that returns with no session active, and follow it with a
    BeginSession on a path that can be opened, WriteRecord calls for records
    whose names contain no backslash and no control character, and the
    matching EndSession.  The whole sequence returns; the file then holds the
    header, the texts of the records separated by single commas (the first one
    directly after the header, each starting with its opening brace) and the
    footer; this content is a JSON text, and reading it gives an object whose
    traceEvents member is an array with one element per WriteRecord call of
    the session, in order. *)
Theorem C1_closed_session_file_is_valid_json :
  forall (bits : bool) (fs : gmap string string) (can_open : string -> bool)
         (lg : list string) (before : list Call) (w : World)
         (session_name filepath : string) (rs : list Result),
    run before (mkWorld (Recorder_ctor bits) fs can_open lg) = Returns w ->
    has_session w = false ->
    can_open filepath = true ->
    safe_records rs ->
    exists w',
      run (before ++
           CallBeginSession session_name filepath ::
           map CallWriteRecord rs ++ [CallEndSession])
          (mkWorld (Recorder_ctor bits) fs can_open lg) = Returns w'
      /\ has_session w' = false
      /\ files w' !! filepath = Some (document rs)
      /\ document rs = header +:+ join_commas (map (json_of true) rs) +:+ footer
      /\ (forall r, exists body, json_of true r = String "{" body)
      /\ valid_json (document rs)
      /\ parse_json (document rs) = Some (trace_of rs)
      /\ field "traceEvents" (trace_of rs) = Some (JArray (map event_of rs))
      /\ length (map event_of rs) = length rs.
Proof.
  intros bits fs can_open lg before w session_name filepath rs Hrun Hidle Hop Hsafe.
  assert (Hq : quiescent w).
  { apply (run_quiescent before (mkWorld (Recorder_ctor bits) fs can_open lg) w);
      [|exact Hrun].
    rewrite fresh_is_idle. apply idle_quiescent. }
  assert (Hopw : openable w = can_open).
  { pose proof (run_keeps_openable before (mkWorld (Recorder_ctor bits) fs can_open lg)) as H.
    now rewrite Hrun in H. }
  destruct (quiescent_idle w Hq Hidle) as (pd & b & fr & Hw).
  rewrite Hopw in Hw.
  exists (idle EmptyString false (Assigned (no_record_yet rs))
            (<[filepath := document rs]> (files w)) can_open (out w)).
  split; [|split; [|split; [|split; [|split; [|split; [|split; [|split]]]]]]].
  - rewrite run_app, Hrun. rewrite Hw at 1.
    apply (run_session session_name filepath rs pd b fr (files w) can_open (out w) Hop).
  - reflexivity.
  - apply lookup_insert_eq.
  - unfold document. now rewrite events_text_join.
  - intros r. now eexists.
  - exists (13 + length rs + 0)%nat, (trace_of rs), EmptyString.
    split; [apply (parse_value_document rs 0 Hsafe) | reflexivity].
  - apply (parse_json_document rs Hsafe).
  - reflexivity.
  - apply length_map.
Qed.

(** An instance: a dropped record and an idle EndSession, then a session
    with two records. *)
Lemma C1_closed_session_file_is_valid_json_witness :
  exists w',
    run ([CallWriteRecord scenario_record; CallEndSession] ++
         CallBeginSession "T" "out.json" ::
         map CallWriteRecord [scenario_record; scenario_record] ++ [CallEndSession])
        (mkWorld (Recorder_ctor false) ∅ (fun _ => true) []) = Returns w'
    /\ files w' !! "out.json" = Some (document [scenario_record; scenario_record])
    /\ parse_json (document [scenario_record; scenario_record]) =
       Some (trace_of [scenario_record; scenario_record]).
Proof.
  destruct (C1_closed_session_file_is_valid_json false ∅ (fun _ => true) []
              [CallWriteRecord scenario_record; CallEndSession]
              (idle EmptyString false (Unassigned false) ∅ (fun _ => true) [])
              "T" "out.json" [scenario_record; scenario_record])
    as (w' & H1 & _ & H3 & _ & _ & _ & H7 & _).
  - reflexivity.
  - reflexivity.
  - reflexivity.
  - repeat constructor.
  - exists w'. split; [exact H1 | split; [exact H3 | exact H7]].
Defined.

(* --------------------------------------------------------------------- *)
(** ** C2 *)

(** C2: on a freshly constructed recorder, BeginSession("T","out.json"),
    WriteRecord of the record named "A" with start 1000, end 1500 and thread
    id 7, then EndSession() return and leave in out.json exactly the bytes of
    the scenario; read back, the single event has its members in the order
    cat, dur, name, ph, pid, tid, ts, with dur 500 (end minus start), ts 1000
    (start), pid 0 and ph "X". *)
Theorem C2_single_record_session_file :
  forall (bits : bool) (fs : gmap string string) (can_open : string -> bool)
         (lg : list string),
    can_open "out.json" = true ->
    exists w',
      run [CallBeginSession "T" "out.json"; CallWriteRecord scenario_record;
           CallEndSession]
          (mkWorld (Recorder_ctor bits) fs can_open lg) = Returns w'
      /\ files w' !! "out.json" = Some scenario_file
      /\ parse_json scenario_file =
         Some (JObject
                 [ ("otherData", JObject []);
                   ("traceEvents",
                    JArray
                      [ JObject
                          [ ("cat", JString "function");
                            ("dur", JNumber "500");
                            ("name", JString "A");
                            ("ph", JString "X");
                            ("pid", JNumber "0");
                            ("tid", JNumber "7");
                            ("ts", JNumber "1000") ] ]) ])
      /\ put_integer (end_ scenario_record - start scenario_record) = "500".
Proof.
  intros bits fs can_open lg Hop. rewrite fresh_is_idle.
  exists (idle EmptyString false (Assigned false)
            (<["out.json" := document [scenario_record]]> fs) can_open lg).
  split; [|split; [|split]].
  - apply (run_session "T" "out.json" [scenario_record] _ _ _ fs can_open lg Hop).
  - unfold idle. cbn [files]. rewrite lookup_insert_eq. reflexivity.
  - vm_compute. reflexivity.
  - reflexivity.
Qed.

(** An instance: the recorder of [Get], no file on disk, every path
    writable. *)
Lemma C2_single_record_session_file_witness :
  exists w',
    run [CallBeginSession "T" "out.json"; CallWriteRecord scenario_record;
         CallEndSession]
        (mkWorld (Recorder_ctor false) ∅ (fun _ => true) []) = Returns w'
    /\ files w' !! "out.json" = Some scenario_file.
Proof.
  destruct (C2_single_record_session_file false ∅ (fun _ => true) [] eq_refl)
    as (w' & H1 & H2 & _).
  exists w'. split; [exact H1 | exact H2].
Defined.

(* --------------------------------------------------------------------- *)
(** ** C3 *)

(** C3, on the code: in every state with a session active, a call of
    BeginSession made by a client (mutex free) logs the warning and then never
    returns: it holds the mutex when it calls EndSession, which locks the
    same mutex.  Where it blocks, no file has been touched (the old file has
    no footer, the new one is not opened), the old session is still current
    and the stream still attached to the old file. *)
Theorem C3_BeginSession_with_open_session_never_returns :
  forall (session_name filepath : string) (w : World) (s : Session),
    current_session (instance w) = Some s ->
    mutex (instance w) = false ->
    exists w',
      BeginSession session_name filepath w = Deadlock w'
      /\ out w' = out w ++ [already_open_message session_name (Name s)]
      /\ mutex (instance w') = true
      /\ files w' = files w
      /\ current_session (instance w') = Some s
      /\ output_stream (instance w') = output_stream (instance w).
Proof.
  intros session_name filepath w s Hs Hm.
  eexists. split.
  - apply (BeginSession_active_blocks session_name filepath w s Hs Hm).
  - destruct_world w. cbn [instance current_session mutex] in Hs, Hm. subst.
    repeat split.
Qed.

(** The scenario of section 8: two calls of BeginSession in a row on a fresh
    recorder.  The first file is left with the header alone, which is not a
    JSON text, and the second file does not exist. *)
Lemma C3_BeginSession_with_open_session_never_returns_witness :
  exists w',
    run [CallBeginSession "A" "a.json"; CallBeginSession "B" "b.json"]
        (Get_initial ∅ (fun _ => true)) = Deadlock w'
    /\ out w' = [already_open_message "B" "A"]
    /\ files w' !! "a.json" = Some header
    /\ parse_json header = None
    /\ files w' !! "b.json" = None.
Proof.
  destruct (C3_BeginSession_with_open_session_never_returns "B" "b.json"
              (recording "A" "a.json" (Assigned true) (<["a.json" := header]> ∅)
                 (fun _ => true) [])
              {| Name := "A" |} eq_refl eq_refl)
    as (w' & H1 & H2 & _ & H4 & _).
  exists w'. split; [|split; [|split; [|split]]].
  - cbn [run call]. unfold seq at 1. unfold Get_initial. rewrite fresh_is_idle.
    rewrite (BeginSession_idle_opens "A" "a.json" _ _ _ ∅ (fun _ => true) [] eq_refl).
    unfold seq. rewrite H1. reflexivity.
  - exact H2.
  - rewrite H4. apply lookup_insert_eq.
  - vm_compute. reflexivity.
  - rewrite H4. vm_compute. reflexivity.
Defined.

(* --------------------------------------------------------------------- *)
(** ** C4 *)

(** C4, on the code: two calls of Stop() in succession on any Timer make two
    calls of WriteRecord; Stop() sets the stopped flag but does not test it. *)
Theorem C4_Stop_twice_forwards_two_records :
  forall (rd1 rd2 : Reading) (t : Timer),
    exists r1 r2,
      snd (Stops [rd1; rd2] t) = [CallWriteRecord r1; CallWriteRecord r2]
      /\ stopped (fst (Stop rd1 t)) = true.
Proof. intros rd1 rd2 t. eexists _, _. split; reflexivity. Qed.

(* --------------------------------------------------------------------- *)
(** ** C5 *)

(** C5, on the code: a Timer does not always emit exactly one record over
    its life.  A Timer on which Stop() is called twice and which is then
    destroyed makes two calls of WriteRecord, one per Stop() (the destructor
    adds none), and a session around such a Timer leaves two events in the
    file for the one Timer.  The two cases the claim spells out do hold: with
    no explicit Stop() the destructor makes the one call through Stop(), and
    after one explicit Stop() the destructor makes none. *)
Theorem C5_timer_stopped_twice_emits_two_records :
  forall (setName : string) (born rd1 rd2 died : Reading),
    lifetime setName born [rd1; rd2] died
    = [CallWriteRecord (Stop_record rd1 (Timer_ctor setName born));
       CallWriteRecord (Stop_record rd2 (Timer_ctor setName born))]
    /\ length (lifetime setName born [rd1; rd2] died) = 2%nat
    /\ (exists w',
          run (PROFILE_SESSION "T" "out.json"
                 (lifetime setName born [rd1; rd2] died))
              (Get_initial ∅ (fun _ => true)) = Returns w'
          /\ files w' !! "out.json"
             = Some (document [Stop_record rd1 (Timer_ctor setName born);
                               Stop_record rd2 (Timer_ctor setName born)]))
    /\ lifetime setName born [] died
       = [CallWriteRecord (Stop_record died (Timer_ctor setName born))]
    /\ lifetime setName born [rd1] died
       = [CallWriteRecord (Stop_record rd1 (Timer_ctor setName born))]
    /\ Timer_dtor died (fst (Stop rd1 (Timer_ctor setName born))) = [].
Proof.
  intros setName born rd1 rd2 died.
  split; [reflexivity|]. split; [reflexivity|]. split.
  - exists (idle EmptyString false (Assigned false)
              (<["out.json" :=
                   document [Stop_record rd1 (Timer_ctor setName born);
                             Stop_record rd2 (Timer_ctor setName born)]]> ∅)
              (fun _ => true) []).
    split; [|apply lookup_insert_eq].
    change (PROFILE_SESSION "T" "out.json" (lifetime setName born [rd1; rd2] died))
      with (CallBeginSession "T" "out.json" ::
            map CallWriteRecord [Stop_record rd1 (Timer_ctor setName born);
                                 Stop_record rd2 (Timer_ctor setName born)]
            ++ [CallEndSession]).
    unfold Get_initial. rewrite fresh_is_idle.
    apply (run_session "T" "out.json"
             [Stop_record rd1 (Timer_ctor setName born);
              Stop_record rd2 (Timer_ctor setName born)]
             EmptyString false (Unassigned false) ∅ (fun _ => true) [] eq_refl).
  - split; [reflexivity | split; reflexivity].
Qed.

(* --------------------------------------------------------------------- *)
(** ** C6 *)

(** C6: for every record, a WriteRecord call made while no session is active
    (and by a caller that does not hold the recorder's mutex) returns, leaves
    every file as it was, writes nothing to the log, and leaves the stream
    and the absence of a session as they were. *)
Theorem C6_WriteRecord_without_session_is_dropped :
  forall (result : Result) (w : World),
    current_session (instance w) = None ->
    mutex (instance w) = false ->
    exists w',
      WriteRecord result w = Returns w'
      /\ files w' = files w
      /\ out w' = out w
      /\ output_stream (instance w') = output_stream (instance w)
      /\ current_session (instance w') = None
      /\ mutex (instance w') = false.
Proof.
  intros result w. destruct_world w. cbn [instance current_session mutex].
  intros -> ->. destruct fr as [[]|[]]; eexists; unfold_cmds; repeat split.
Qed.

(** An instance: a record written before any session, with one file on
    disk. *)
Lemma C6_WriteRecord_without_session_is_dropped_witness :
  exists w',
    WriteRecord scenario_record (Get_initial {["old.json" := "[]"]} (fun _ => true))
    = Returns w'
    /\ files w' = {["old.json" := "[]"]}
    /\ out w' = [].
Proof.
  destruct (C6_WriteRecord_without_session_is_dropped scenario_record
              (Get_initial {["old.json" := "[]"]} (fun _ => true)) eq_refl eq_refl)
    as (w' & H1 & H2 & H3 & _).
  exists w'. split; [exact H1 | split; [exact H2 | exact H3]].
Defined.

(* --------------------------------------------------------------------- *)
(** ** C7 *)

(** C7: between two calls (mutex free, stream open exactly when a session is
    active) and with no session active, a BeginSession whose file cannot be
    opened returns, logs the error line, leaves no session active and the
    stream closed, and leaves every file as it was (no header is written);
    after it, any sequence of calls that contains no BeginSession on a path
    that can be opened returns with the files still unchanged and still no
    session, whatever WriteRecord calls it contains. *)
Theorem C7_failed_open_disables_recording :
  forall (session_name filepath : string) (w : World),
    quiescent w ->
    has_session w = false ->
    openable w filepath = false ->
    exists w',
      BeginSession session_name filepath w = Returns w'
      /\ out w' = out w ++ [could_not_open_message filepath]
      /\ current_session (instance w') = None
      /\ output_stream_is_open w' = false
      /\ files w' = files w
      /\ forall cs : list Call,
           Forall (fun c => opens (openable w) c = false) cs ->
           exists w'',
             run cs w' = Returns w''
             /\ files w'' = files w
             /\ current_session (instance w'') = None.
Proof.
  intros session_name filepath w Hq Hidle Hop.
  destruct (quiescent_idle w Hq Hidle) as (pd & b & fr & Hw).
  eexists. split; [|split; [|split; [|split; [|split]]]].
  - rewrite Hw at 1.
    apply (BeginSession_idle_fails session_name filepath pd b fr _ _ _ Hop).
  - reflexivity.
  - reflexivity.
  - reflexivity.
  - reflexivity.
  - intros cs Hcs.
    destruct (run_idle_without_open cs pd true (Assigned true) (files w) (openable w)
                (out w ++ [could_not_open_message filepath]) Hcs)
      as (pd' & b' & fr' & lg' & Hrun).
    eexists. split; [exact Hrun | split; reflexivity].
Qed.

(** An instance: no path can be opened; records and an EndSession follow
    the failed BeginSession. *)
Lemma C7_failed_open_disables_recording_witness :
  exists w' w'',
    BeginSession "T" "/nowhere/out.json" (Get_initial ∅ (fun _ => false)) = Returns w'
    /\ out w' = [could_not_open_message "/nowhere/out.json"]
    /\ run [CallWriteRecord scenario_record; CallEndSession;
            CallWriteRecord scenario_record] w' = Returns w''
    /\ files w'' = ∅.
Proof.
  destruct (C7_failed_open_disables_recording "T" "/nowhere/out.json"
              (Get_initial ∅ (fun _ => false)))
    as (w' & H1 & H2 & _ & _ & _ & H6).
  - split; reflexivity.
  - reflexivity.
  - reflexivity.
  - destruct (H6 [CallWriteRecord scenario_record; CallEndSession;
                  CallWriteRecord scenario_record]) as (w'' & H7 & H8 & _).
    + repeat constructor.
    + exists w', w''. split; [exact H1 | split; [exact H2 | split; [exact H7 | exact H8]]].
Defined.

(* --------------------------------------------------------------------- *)
(** ** C8 *)

(** C8: the text WriteRecord builds for a record contains its name between
    the name literals with every double quote replaced by an apostrophe and
    every other character, backslashes and control characters included, left
    as it is, position by position; the name made of Foo, a double quote and
    Bar is written as Foo'Bar, also in the file of a session. *)
Theorem C8_name_double_quotes_become_apostrophes :
  (forall (first : bool) (r : Result),
     json_of first r =
     str [ (if first then "{" else ",{")%string; cat_literal; dur_literal;
           put_integer (wrap_long_long (end_ r - start r)); ","%string;
           name_literal ]
     +:+ replace dquote squote (name r)
     +:+ str [ name_end_literal; ph_literal; pid_literal; tid_literal;
               put_integer (thread_id r); ","%string; ts_literal;
               put_integer (start r); "}"%string ])
  /\ (forall (s : string),
        String.length (replace dquote squote s) = String.length s
        /\ forall i : nat,
             String.get i (replace dquote squote s) =
             option_map (fun c => if Ascii.eqb c dquote then squote else c)
                        (String.get i s))
  /\ replace dquote squote quoted_name = "Foo'Bar"
  /\ replace dquote squote "a\b" = "a\b"
  /\ exists w',
       run [CallBeginSession "T" "out.json"; CallWriteRecord quoted_record;
            CallEndSession]
           (Get_initial ∅ (fun _ => true)) = Returns w'
       /\ files w' !! "out.json" = Some (document [quoted_record])
       /\ parse_json (document [quoted_record]) =
          Some (JObject
                  [ ("otherData", JObject []);
                    ("traceEvents",
                     JArray
                       [ JObject
                           [ ("cat", JString "function");
                             ("dur", JNumber "1");
                             ("name", JString "Foo'Bar");
                             ("ph", JString "X");
                             ("pid", JNumber "0");
                             ("tid", JNumber "1");
                             ("ts", JNumber "0") ] ]) ]).
Proof.
  split; [|split; [|split; [|split]]].
  - intros first r. unfold json_of, str. cbn [fold_right].
    rewrite !append_assoc, !append_nil_r. reflexivity.
  - intros s. split; [apply replace_length | intros i; apply replace_get].
  - reflexivity.
  - reflexivity.
  - exists (idle EmptyString false (Assigned false)
              (<["out.json" := document [quoted_record]]> ∅) (fun _ => true) []).
    split; [|split].
    + apply (run_session "T" "out.json" [quoted_record]). reflexivity.
    + apply lookup_insert_eq.
    + vm_compute. reflexivity.
Qed.

(* --------------------------------------------------------------------- *)
(** ** C9 *)

(** C9: the output stream is open if and only if a session is active in a
    freshly constructed Recorder, and every public operation (BeginSession,
    whether or not the file can be opened, EndSession and WriteRecord) that is
    started in a state where this holds ends in a state where it holds. *)
Theorem C9_stream_open_iff_session_invariant :
  (forall (bits : bool) (fs : gmap string string) (can_open : string -> bool)
          (lg : list string),
     stream_open_iff_session (mkWorld (Recorder_ctor bits) fs can_open lg))
  /\ (forall (c : Call) (w : World),
        stream_open_iff_session w ->
        stream_open_iff_session (state_of (call c w)))
  /\ (forall (cs : list Call) (w w' : World),
        stream_open_iff_session w ->
        mutex (instance w) = false ->
        run cs w = Returns w' ->
        stream_open_iff_session w').
Proof.
  split; [|split].
  - intros bits fs can_open lg. reflexivity.
  - apply call_keeps_stream_open_iff_session.
  - intros cs w w' Hi Hm Hrun.
    apply (run_quiescent cs w w' (conj Hm Hi) Hrun).
Qed.

(** An instance: the recorder of [Get], and BeginSession on a path that
    cannot, resp. can, be opened. *)
Lemma C9_stream_open_iff_session_invariant_witness :
  stream_open_iff_session (Get_initial ∅ (fun _ => false))
  /\ stream_open_iff_session
       (state_of (call (CallBeginSession "T" "out.json")
                       (Get_initial ∅ (fun _ => false))))
  /\ stream_open_iff_session
       (state_of (call (CallBeginSession "T" "out.json")
                       (Get_initial ∅ (fun _ => true)))).
Proof.
  destruct C9_stream_open_iff_session_invariant as (H0 & H1 & _).
  split; [apply H0 | split].
  - apply (H1 (CallBeginSession "T" "out.json") (Get_initial ∅ (fun _ => false))).
    reflexivity.
  - apply (H1 (CallBeginSession "T" "out.json") (Get_initial ∅ (fun _ => true))).
    reflexivity.
Defined.

(* --------------------------------------------------------------------- *)
(** ** C10 *)

(** C10, on the code: the constructor leaves the first-record flag
    unassigned, and a WriteRecord call made before any BeginSession reads it:
    what the call leaves in the flag depends on what the storage happened to
    hold. *)
Theorem C10_WriteRecord_reads_unassigned_flag :
  forall (r : Result) (fs : gmap string string) (can_open : string -> bool)
         (lg : list string),
    (forall bits, is_assigned (first_record (Recorder_ctor bits)) = false)
    /\ WriteRecord r (mkWorld (Recorder_ctor true) fs can_open lg) =
       Returns (idle EmptyString false (Assigned false) fs can_open lg)
    /\ WriteRecord r (mkWorld (Recorder_ctor false) fs can_open lg) =
       Returns (idle EmptyString false (Unassigned false) fs can_open lg).
Proof.
  intros r fs can_open lg. split; [reflexivity | split; reflexivity].
Qed.


(* ===================================================================== *)
(** * Further properties of the recorder                                  *)
(* ===================================================================== *)

(** X1: between two calls, EndSession returns and leaves no session and a
    closed stream; called again it changes nothing, and with no session to end
    it changes nothing in the first place. *)
Theorem X1_EndSession_is_idempotent :
  forall w : World,
    quiescent w ->
    exists w',
      EndSession w = Returns w'
      /\ EndSession w' = Returns w'
      /\ has_session w' = false
      /\ output_stream_is_open w' = false
      /\ (has_session w = false -> w' = w).
Proof.
  intros w. destruct_world w. unfold quiescent, stream_open_iff_session.
  unfold_cmds. intros [-> Hi].
  destruct cs as [s|], o as [p|], b; try discriminate Hi;
    eexists; unfold_cmds; repeat split; discriminate.
Qed.

(** An instance: ending the session of the scenario twice. *)
Lemma X1_EndSession_is_idempotent_witness :
  exists w',
    EndSession (recording "T" "out.json" (Assigned true)
                  (<["out.json" := header]> ∅) (fun _ => true) []) = Returns w'
    /\ EndSession w' = Returns w'
    /\ has_session w' = false.
Proof.
  destruct (X1_EndSession_is_idempotent
              (recording "T" "out.json" (Assigned true)
                 (<["out.json" := header]> ∅) (fun _ => true) []))
    as (w' & H1 & H2 & H3 & _).
  - split; reflexivity.
  - exists w'. split; [exact H1 | split; [exact H2 | exact H3]].
Defined.

(** X2: between two calls, a call blocks exactly when it is a BeginSession
    made while a session is active; every other call returns, with the mutex
    released and the stream open exactly when a session is active. *)
Theorem X2_only_BeginSession_over_a_session_blocks :
  forall (c : Call) (w : World),
    quiescent w ->
    (begins_over_session c w = true -> exists w', call c w = Deadlock w')
    /\ (begins_over_session c w = false ->
        exists w', call c w = Returns w' /\ quiescent w').
Proof.
  intros c w Hq. split.
  - destruct c as [n p| |r]; cbn [begins_over_session]; try discriminate.
    intros Hs. unfold has_session in Hs.
    destruct (current_session (instance w)) as [s|] eqn:Hcs; [|discriminate].
    eexists. apply (BeginSession_active_blocks n p w s Hcs (proj1 Hq)).
  - intros Hb.
    assert (Hret : exists w', call c w = Returns w').
    { destruct_world w. destruct Hq as [Hm Hi].
      unfold stream_open_iff_session in Hi. unfold_cmds_in Hi.
      cbn [instance mutex] in Hm. subst m.
      destruct c as [n p| |r]; cbn [begins_over_session] in Hb.
      - unfold has_session in Hb. cbn [instance current_session] in Hb.
        destruct cs; [discriminate|]. destruct o; [discriminate|].
        unfold_cmds. destruct (op p); unfold_cmds; eexists; reflexivity.
      - destruct cs, o, b; try discriminate Hi; unfold_cmds; eexists; reflexivity.
      - destruct cs, o, b, fr as [[]|[]]; try discriminate Hi; unfold_cmds;
          eexists; reflexivity. }
    destruct Hret as [w' Hw']. exists w'. split; [exact Hw'|].
    apply (run_quiescent [c] w w' Hq). cbn [run]. unfold seq. now rewrite Hw'.
Qed.

(** An instance: WriteRecord in a session returns, a second BeginSession
    blocks. *)
Lemma X2_only_BeginSession_over_a_session_blocks_witness :
  (exists w',
     call (CallBeginSession "B" "b.json")
          (recording "A" "a.json" (Assigned true) ∅ (fun _ => true) []) = Deadlock w')
  /\ (exists w',
        call (CallWriteRecord scenario_record)
             (recording "A" "a.json" (Assigned true) ∅ (fun _ => true) []) = Returns w').
Proof.
  split.
  - apply (proj1 (X2_only_BeginSession_over_a_session_blocks
                    (CallBeginSession "B" "b.json")
                    (recording "A" "a.json" (Assigned true) ∅ (fun _ => true) [])
                    (conj eq_refl eq_refl))).
    reflexivity.
  - destruct (proj2 (X2_only_BeginSession_over_a_session_blocks
                       (CallWriteRecord scenario_record)
                       (recording "A" "a.json" (Assigned true) ∅ (fun _ => true) [])
                       (conj eq_refl eq_refl)) eq_refl) as (w' & H & _).
    exists w'. exact H.
Defined.

(** X3: no call touches a file other than the one the stream is attached to
    and the one a BeginSession names: every other path keeps its content (or
    its absence), whether the call returns or blocks. *)
Theorem X3_other_files_are_left_alone :
  forall (c : Call) (w : World) (q : string),
    opened (output_stream (instance w)) <> Some q ->
    (forall n, c <> CallBeginSession n q) ->
    files (state_of (call c w)) !! q = files w !! q.
Proof.
  intros c w q. destruct_world w. cbn [instance output_stream opened].
  intros Ho Hc.
  assert (Hne : forall p, o = Some p -> p <> q) by (intros p -> ->; now apply Ho).
  destruct c as [n p| |r].
  - assert (Hp : p <> q) by (intros ->; now apply (Hc n)).
    destruct cs, m, o as [p0|], b; unfold_cmds; try reflexivity;
      destruct (op p); unfold_cmds; try reflexivity;
      rewrite ?lookup_insert_ne by (try exact Hp; now apply Hne); reflexivity.
  - destruct cs, m, o as [p0|], b; unfold_cmds; try reflexivity;
      rewrite ?lookup_insert_ne by (now apply Hne); reflexivity.
  - destruct cs, m, o as [p0|], b, fr as [[]|[]]; unfold_cmds; try reflexivity;
      rewrite ?lookup_insert_ne by (now apply Hne); reflexivity.
Qed.

(** An instance: a session on out.json leaves old.json as it was. *)
Lemma X3_other_files_are_left_alone_witness :
  files (state_of (call (CallBeginSession "T" "out.json")
                        (Get_initial {["old.json" := "[]"]} (fun _ => true))))
    !! "old.json" = Some "[]".
Proof.
  rewrite (X3_other_files_are_left_alone (CallBeginSession "T" "out.json")
             (Get_initial {["old.json" := "[]"]} (fun _ => true)) "old.json").
  - reflexivity.
  - discriminate.
  - intros n H. discriminate H.
Defined.

(** X4: WriteRecord and EndSession never write to the log, whatever the
    state; between two calls, BeginSession logs one line when a session is
    already open, one line when the file cannot be opened, and nothing when it
    opens the file. *)
Theorem X4_only_BeginSession_logs :
  (forall (r : Result) (w : World), out (state_of (WriteRecord r w)) = out w)
  /\ (forall w : World, out (state_of (EndSession w)) = out w)
  /\ (forall (n p : string) (w : World),
        quiescent w ->
        out (state_of (BeginSession n p w)) = out w ++ BeginSession_log n p w).
Proof.
  split; [|split].
  - intros r w. destruct_world w.
    destruct cs, m, o, b, fr as [[]|[]]; unfold_cmds; reflexivity.
  - intros w. destruct_world w.
    destruct cs, m, o, b; unfold_cmds; reflexivity.
  - intros n p w. destruct_world w. unfold quiescent, stream_open_iff_session.
    unfold BeginSession_log. unfold_cmds. intros [-> Hi].
    destruct cs as [s|], o as [p0|]; try discriminate Hi.
    + unfold_cmds. reflexivity.
    + destruct (op p); unfold_cmds; [now rewrite app_nil_r | reflexivity].
Qed.

(** An instance: a BeginSession on a path that cannot be opened. *)
Lemma X4_only_BeginSession_logs_witness :
  out (state_of (BeginSession "T" "/nowhere/out.json" (Get_initial ∅ (fun _ => false))))
  = [could_not_open_message "/nowhere/out.json"].
Proof.
  rewrite (proj2 (proj2 X4_only_BeginSession_logs) "T" "/nowhere/out.json"
             (Get_initial ∅ (fun _ => false)) (conj eq_refl eq_refl)).
  reflexivity.
Defined.

Lemma run_open_session (n p : string) (rs : list Result) (w : World) :
  quiescent w ->
  has_session w = false ->
  openable w p = true ->
  exists w',
    run (CallBeginSession n p :: map CallWriteRecord rs) w = Returns w'
    /\ files w' !! p = Some (header +:+ events_text true rs)
    /\ pending (output_stream (instance w')) = EmptyString
    /\ bad (output_stream (instance w')) = false
    /\ current_session (instance w') = Some {| Name := n |}
    /\ quiescent w'.
Proof.
  intros Hq Hidle Hop.
  destruct (quiescent_idle w Hq Hidle) as (pd & b & fr & Hw).
  eexists. split.
  - rewrite Hw at 1. cbn [run call]. unfold seq at 1.
    rewrite (BeginSession_idle_opens n p pd b fr _ _ _ Hop).
    apply (run_records rs true n p _ _ _ header). apply lookup_insert_eq.
  - unfold recording. cbn [files instance output_stream pending bad current_session].
    split; [apply lookup_insert_eq|]. repeat split.
Qed.

(** X5: every record is on disk when its WriteRecord returns.  Between two
    calls and with no session active, BeginSession on a path that can be
    opened followed by WriteRecord calls returns with the session active,
    nothing pending in the stream, and the file holding the header and the
    texts of all the records so far (and no footer). *)
Theorem X5_records_are_flushed_one_by_one :
  forall (n p : string) (rs : list Result) (w : World),
    quiescent w ->
    has_session w = false ->
    openable w p = true ->
    exists w',
      run (CallBeginSession n p :: map CallWriteRecord rs) w = Returns w'
      /\ files w' !! p = Some (header +:+ events_text true rs)
      /\ pending (output_stream (instance w')) = EmptyString
      /\ bad (output_stream (instance w')) = false
      /\ current_session (instance w') = Some {| Name := n |}
      /\ quiescent w'.
Proof.
  intros n p rs w. apply run_open_session.
Qed.

(** An instance: two records of the scenario. *)
Lemma X5_records_are_flushed_one_by_one_witness :
  exists w',
    run (CallBeginSession "T" "out.json"
         :: map CallWriteRecord [scenario_record; scenario_record])
        (Get_initial ∅ (fun _ => true)) = Returns w'
    /\ files w' !! "out.json"
       = Some (header +:+ events_text true [scenario_record; scenario_record]).
Proof.
  destruct (X5_records_are_flushed_one_by_one "T" "out.json"
              [scenario_record; scenario_record] (Get_initial ∅ (fun _ => true)))
    as (w' & H1 & H2 & _).
  - split; reflexivity.
  - reflexivity.
  - reflexivity.
  - exists w'. split; [exact H1 | exact H2].
Defined.

(** X6: two sessions one after the other, between two calls and with no
    session active at the start: the file of the second session holds the
    document of the second session only, also when it is the file of the
    first (opening truncates); when the paths differ the file of the first
    session still holds the document of the first. *)
Theorem X6_sessions_do_not_mix :
  forall (n1 p1 n2 p2 : string) (rs1 rs2 : list Result) (w : World),
    quiescent w ->
    has_session w = false ->
    openable w p1 = true ->
    openable w p2 = true ->
    exists w',
      run (PROFILE_SESSION n1 p1 (map CallWriteRecord rs1) ++
           PROFILE_SESSION n2 p2 (map CallWriteRecord rs2)) w = Returns w'
      /\ files w' !! p2 = Some (document rs2)
      /\ (p1 <> p2 -> files w' !! p1 = Some (document rs1))
      /\ has_session w' = false.
Proof.
  intros n1 p1 n2 p2 rs1 rs2 w Hq Hidle Hop1 Hop2.
  destruct (quiescent_idle w Hq Hidle) as (pd & b & fr & Hw).
  eexists. split.
  - rewrite Hw at 1. rewrite run_app. unfold PROFILE_SESSION.
    rewrite (run_session n1 p1 rs1 pd b fr _ _ _ Hop1).
    apply (run_session n2 p2 rs2 _ _ _ _ _ _ Hop2).
  - unfold idle. cbn [files]. split; [apply lookup_insert_eq|]. split.
    + intros Hne. rewrite lookup_insert_ne by (intros E; now apply Hne).
      apply lookup_insert_eq.
    + reflexivity.
Qed.

(** An instance: two sessions writing to the same file. *)
Lemma X6_sessions_do_not_mix_witness :
  exists w',
    run (PROFILE_SESSION "A" "out.json" (map CallWriteRecord [scenario_record]) ++
         PROFILE_SESSION "B" "out.json" (map CallWriteRecord [])) 
        (Get_initial ∅ (fun _ => true)) = Returns w'
    /\ files w' !! "out.json" = Some (document []).
Proof.
  destruct (X6_sessions_do_not_mix "A" "out.json" "B" "out.json"
              [scenario_record] [] (Get_initial ∅ (fun _ => true)))
    as (w' & H1 & H2 & _).
  - split; reflexivity.
  - reflexivity.
  - reflexivity.
  - reflexivity.
  - exists w'. split; [exact H1 | exact H2].
Defined.

(** X7: once the first-record flag has been assigned it stays assigned
    through every call, and a BeginSession made with the mutex free assigns
    it, whether it then opens the file, fails to, or blocks: the flag can be
    read unassigned only before the first BeginSession. *)
Theorem X7_first_record_stays_assigned :
  (forall (c : Call) (w : World),
     is_assigned (first_record (instance w)) = true ->
     is_assigned (first_record (instance (state_of (call c w)))) = true)
  /\ (forall (n p : string) (w : World),
        mutex (instance w) = false ->
        is_assigned (first_record (instance (state_of (BeginSession n p w)))) = true).
Proof.
  split.
  - intros c w. destruct_world w. cbn [instance first_record].
    destruct fr as [bits|v]; [discriminate|]. intros _.
    destruct c as [n p| |r].
    + destruct cs, m, o, b; unfold_cmds; try reflexivity;
        destruct (op p); unfold_cmds; reflexivity.
    + destruct cs, m, o, b; unfold_cmds; reflexivity.
    + destruct cs, m, o, b, v; unfold_cmds; reflexivity.
  - intros n p w. destruct_world w. cbn [instance mutex]. intros ->.
    destruct cs, o, b; unfold_cmds; try reflexivity;
      destruct (op p); unfold_cmds; reflexivity.
Qed.

(** An instance: after a BeginSession that fails, a WriteRecord finds the
    flag assigned and leaves it assigned. *)
Lemma X7_first_record_stays_assigned_witness :
  is_assigned
    (first_record
       (instance
          (state_of
             (call (CallWriteRecord scenario_record)
                (state_of (BeginSession "T" "out.json"
                             (Get_initial ∅ (fun _ => false)))))))) = true.
Proof.
  apply (proj1 X7_first_record_stays_assigned).
  apply (proj2 X7_first_record_stays_assigned). reflexivity.
Defined.

(* ===================================================================== *)
(** * The reader and its fuel                                             *)
(* ===================================================================== *)

Lemma parse_value_S f s :
  parse_value (S f) s = value_step (parse_members f) (parse_elements f) s.
Proof. reflexivity. Qed.

Lemma parse_members_S f s :
  parse_members (S f) s = members_step (parse_value f) (parse_members f) s.
Proof. reflexivity. Qed.

Lemma parse_elements_S f s :
  parse_elements (S f) s = elements_step (parse_value f) (parse_elements f) s.
Proof. reflexivity. Qed.

Lemma value_step_below m m' e e' :
  below m m' -> below e e' -> below (value_step m e) (value_step m' e').
Proof.
  intros Hm He s r. unfold value_step.
  destruct (skip_ws s) as [|c s1]; [discriminate|].
  destruct (Ascii.eqb c "{").
  { destruct (skip_ws s1) as [|c1 s2]; [discriminate|].
    destruct (Ascii.eqb c1 "}"); [trivial|]. below_call Hm. trivial. }
  destruct (Ascii.eqb c "[").
  { destruct (skip_ws s1) as [|c1 s2]; [discriminate|].
    destruct (Ascii.eqb c1 "]"); [trivial|]. below_call He. trivial. }
  trivial.
Qed.

Lemma members_step_below v v' m m' :
  below v v' -> below m m' -> below (members_step v m) (members_step v' m').
Proof.
  intros Hv Hm s r. unfold members_step.
  destruct (skip_ws s) as [|c s1]; [discriminate|].
  destruct (Ascii.eqb c dquote); [|discriminate].
  destruct (lex_string_body s1) as [[key s2]|]; [|discriminate].
  destruct (skip_ws s2) as [|c2 s3]; [discriminate|].
  destruct (Ascii.eqb c2 ":"); [|discriminate].
  below_call Hv.
  destruct (skip_ws s0) as [|c4 s5]; [discriminate|].
  destruct (Ascii.eqb c4 ","); [|trivial].
  below_call Hm. trivial.
Qed.

Lemma elements_step_below v v' e e' :
  below v v' -> below e e' -> below (elements_step v e) (elements_step v' e').
Proof.
  intros Hv He s r. unfold elements_step.
  below_call Hv.
  destruct (skip_ws s0) as [|c s2]; [discriminate|].
  destruct (Ascii.eqb c ","); [|trivial].
  below_call He. trivial.
Qed.

(** More fuel never changes a result. *)
Lemma parse_fuel_S (f : nat) :
  below (parse_value f) (parse_value (S f))
  /\ below (parse_members f) (parse_members (S f))
  /\ below (parse_elements f) (parse_elements (S f)).
Proof.
  induction f as [|f (IHv & IHm & IHe)].
  - repeat split; intros s r H; discriminate H.
  - split; [|split]; intros s r.
    + rewrite (parse_value_S f), (parse_value_S (S f)).
      now apply value_step_below.
    + rewrite (parse_members_S f), (parse_members_S (S f)).
      now apply members_step_below.
    + rewrite (parse_elements_S f), (parse_elements_S (S f)).
      now apply elements_step_below.
Qed.

Lemma parse_value_fuel_le (f f' : nat) (s : string) (r : json * string) :
  (f <= f')%nat -> parse_value f s = Some r -> parse_value f' s = Some r.
Proof.
  induction 1 as [|f' Hle IH]; [trivial|].
  intros H. apply (proj1 (parse_fuel_S f')). now apply IH.
Qed.

Lemma parse_members_more_fails f key body v body' :
  plain key = true ->
  parse_value f body = Some (v, String "," body') ->
  parse_members f body' = None ->
  parse_members (S f) (member_text key body) = None.
Proof.
  intros Hk Hv Hm. unfold member_text.
  cbn [parse_members]. simpl skip_ws. simpl Ascii.eqb. cbv iota.
  rewrite (lex_string_body_plain key _ Hk). simpl skip_ws. simpl Ascii.eqb. cbv iota.
  rewrite Hv. simpl skip_ws. simpl Ascii.eqb. cbv iota.
  now rewrite Hm.
Qed.

Lemma parse_members_last_fails f key body :
  plain key = true ->
  parse_value f body = None ->
  parse_members (S f) (member_text key body) = None.
Proof.
  intros Hk Hv. unfold member_text.
  cbn [parse_members]. simpl skip_ws. simpl Ascii.eqb. cbv iota.
  rewrite (lex_string_body_plain key _ Hk). simpl skip_ws. simpl Ascii.eqb. cbv iota.
  now rewrite Hv.
Qed.

Lemma parse_value_object_fails f key body :
  parse_members f (member_text key body) = None ->
  parse_value (S f) (String "{" (member_text key body)) = None.
Proof.
  unfold member_text. intros Hm.
  cbn [parse_value]. simpl skip_ws. simpl Ascii.eqb. cbv iota.
  now rewrite Hm.
Qed.

Lemma parse_elements_more_fails f s v s' :
  parse_value f s = Some (v, String "," s') ->
  parse_elements f s' = None ->
  parse_elements (S f) s = None.
Proof.
  intros Hv He. cbn [parse_elements]. rewrite Hv.
  simpl skip_ws. simpl Ascii.eqb. cbv iota. now rewrite He.
Qed.

Lemma parse_elements_end_fails f s v :
  parse_value f s = Some (v, EmptyString) ->
  parse_elements (S f) s = None.
Proof. intros Hv. cbn [parse_elements]. now rewrite Hv. Qed.

Lemma parse_value_array_fails f s :
  parse_elements f (String "{" s) = None ->
  parse_value (S f) (String "[" (String "{" s)) = None.
Proof.
  intros He. cbn [parse_value]. simpl skip_ws. simpl Ascii.eqb. cbv iota.
  now rewrite He.
Qed.

(** The elements of an array that is not closed. *)
Lemma parse_events_unclosed (tail : list Result) : forall (r : Result) (f : nat),
  safe_records (r :: tail) ->
  parse_elements (S (length tail) + 9 + f) (events_text true (r :: tail)) = None.
Proof.
  induction tail as [|r' tail IH]; intros r f Hsafe;
    inversion Hsafe as [|r0 rs0 Hr Htail]; subst.
  - cbn [events_text]. rewrite json_of_first_text.
    change (S (length (@nil Result)) + 9 + f)%nat with (S (9 + f)).
    apply (parse_elements_end_fails _ _ (event_of r)). apply (parse_event f r _ Hr).
  - change (events_text true (r :: r' :: tail))
      with (json_of true r +:+ events_text false (r' :: tail)).
    rewrite events_text_later. rewrite json_of_first_text.
    assert (E : (S (length (r' :: tail)) + 9 + f
                 = S (9 + (length (r' :: tail) + f)))%nat) by lia.
    rewrite E.
    apply parse_elements_more_fails
      with (v := event_of r) (s' := events_text true (r' :: tail)).
    + apply (parse_event _ r _ Hr).
    + replace (9 + (length (r' :: tail) + f))%nat
        with (S (length tail) + 9 + f)%nat by (simpl; lia).
      apply (IH r' f Htail).
Qed.

Lemma unclosed_text (rs : list Result) :
  header +:+ events_text true rs =
  String "{"
   (member_text "otherData" (String " " (String "{" (String "}" (String ","
   (member_text "traceEvents" (String "[" (events_text true rs)))))))).
Proof. reflexivity. Qed.

Lemma events_text_head_alone (r : Result) (rs : list Result) :
  exists s, events_text true (r :: rs) = String "{" s.
Proof. eexists. reflexivity. Qed.

Lemma parse_value_unclosed (rs : list Result) (f : nat) :
  safe_records rs ->
  parse_value (13 + length rs + f) (header +:+ events_text true rs) = None.
Proof.
  intros Hsafe. destruct rs as [|r tail]; [reflexivity|].
  replace (13 + length (r :: tail) + f)%nat
    with (S (S (S (S (S (length tail) + 9 + f)))))%nat by (simpl; lia).
  rewrite unclosed_text.
  apply parse_value_object_fails.
  eapply parse_members_more_fails; [reflexivity | reflexivity |].
  eapply parse_members_last_fails; [reflexivity |].
  destruct (events_text_head_alone r tail) as [s Hs].
  rewrite Hs. apply parse_value_array_fails. rewrite <- Hs.
  apply (parse_events_unclosed tail r f Hsafe).
Qed.

(** X8: a session that is not ended leaves a file that is not a JSON text:
    whatever the number of records written (their names free of backslashes
    and control characters), the header followed by their texts is rejected
    by the reader at every amount of fuel.  Together with X5: if the process
    stops before EndSession, the trace file on disk is invalid. *)
Theorem X8_unended_session_file_is_not_json :
  forall (n p : string) (rs : list Result) (w : World),
    quiescent w ->
    has_session w = false ->
    openable w p = true ->
    safe_records rs ->
    exists w' text,
      run (CallBeginSession n p :: map CallWriteRecord rs) w = Returns w'
      /\ files w' !! p = Some text
      /\ ~ valid_json text
      /\ parse_json text = None.
Proof.
  intros n p rs w Hq Hidle Hop Hsafe.
  destruct (run_open_session n p rs w Hq Hidle Hop)
    as (w' & Hrun & Hfile & _).
  assert (Hno : ~ valid_json (header +:+ events_text true rs)).
  { intros (f & v & rest & Hparse & _).
    assert (H := parse_value_fuel_le f (13 + length rs + f) _ _ ltac:(lia) Hparse).
    rewrite (parse_value_unclosed rs f Hsafe) in H. discriminate H. }
  exists w', (header +:+ events_text true rs).
  split; [exact Hrun | split; [exact Hfile | split; [exact Hno|]]].
  unfold parse_json.
  destruct (parse_value (S (String.length (header +:+ events_text true rs)))
              (header +:+ events_text true rs)) as [[v rest]|] eqn:E;
    [|reflexivity].
  destruct (skip_ws rest) eqn:Ews; [|reflexivity].
  exfalso. apply Hno.
  exists (S (String.length (header +:+ events_text true rs))), v, rest.
  split; [exact E | exact Ews].
Qed.

(** An instance: one record of the scenario, and no EndSession. *)
Lemma X8_unended_session_file_is_not_json_witness :
  exists w' text,
    run (CallBeginSession "T" "out.json" :: map CallWriteRecord [scenario_record])
        (Get_initial ∅ (fun _ => true)) = Returns w'
    /\ files w' !! "out.json" = Some text
    /\ parse_json text = None.
Proof.
  destruct (X8_unended_session_file_is_not_json "T" "out.json" [scenario_record]
              (Get_initial ∅ (fun _ => true)))
    as (w' & text & H1 & H2 & _ & H4).
  - split; reflexivity.
  - reflexivity.
  - reflexivity.
  - repeat constructor.
  - exists w', text. split; [exact H1 | split; [exact H2 | exact H4]].
Defined.

(* ===================================================================== *)
(** * Further properties of the timer and of the text                     *)
(* ===================================================================== *)

Lemma wrap_long_long_in_range (z : Z) :
  in_long_long z -> wrap_long_long z = z.
Proof.
  unfold in_long_long, wrap_long_long. intros H.
  rewrite Z.mod_small by lia. lia.
Qed.

Lemma microseconds_le (rd : Reading) (a b : Z) :
  0 < ticks_per_microsecond rd -> a <= b -> microseconds rd a <= microseconds rd b.
Proof. intros Hk Hab. now apply Z.quot_le_mono. Qed.

Lemma microseconds_bounds (rd : Reading) (a : Z) :
  0 < ticks_per_microsecond rd -> 0 <= a -> 0 <= microseconds rd a <= a.
Proof.
  intros Hk Ha. unfold microseconds. split.
  - now apply Z.quot_pos.
  - apply Z.quot_le_upper_bound; [exact Hk | nia].
Qed.

(** X9: with a clock of positive resolution that does not run backwards and
    counts from a non-negative origin within the range of long long, Stop()
    forwards one record that carries the name of the timer, a start and an
    end in microseconds with 0 <= start <= end, a duration end - start that
    does not overflow (it is printed as it is, without a sign), and a thread
    id that is the hash of the thread reduced to 32 bits. *)
Theorem X9_Stop_forwards_a_well_formed_record :
  forall (rd : Reading) (t : Timer),
    0 < ticks_per_microsecond rd ->
    0 <= start_timepoint t <= now rd ->
    now rd < 2 ^ 63 ->
    exists r,
      snd (Stop rd t) = [CallWriteRecord r]
      /\ name r = timer_name t
      /\ 0 <= start r <= end_ r
      /\ end_ r < 2 ^ 63
      /\ 0 <= wrap_long_long (end_ r - start r)
      /\ wrap_long_long (end_ r - start r) = end_ r - start r
      /\ 0 <= thread_id r < 2 ^ 32
      /\ (thread_id r - thread_hash rd) mod 2 ^ 32 = 0.
Proof.
  intros rd t Hk [H0 Hle] Hmax.
  exists (Stop_record rd t). unfold Stop_record. cbn [name start end_ thread_id].
  pose proof (microseconds_bounds rd (start_timepoint t) Hk H0) as [Hs0 Hs1].
  pose proof (microseconds_bounds rd (now rd) Hk ltac:(lia)) as [He0 He1].
  pose proof (microseconds_le rd _ _ Hk Hle) as Hse.
  assert (Hw : wrap_long_long
                 (microseconds rd (now rd) - microseconds rd (start_timepoint t))
               = microseconds rd (now rd) - microseconds rd (start_timepoint t)).
  { apply wrap_long_long_in_range. unfold in_long_long. lia. }
  split; [reflexivity|]. split; [reflexivity|].
  split; [lia|]. split; [lia|]. split; [rewrite Hw; lia|]. split; [exact Hw|].
  unfold to_uint32. split.
  - apply Z.mod_pos_bound. lia.
  - rewrite Zminus_mod_idemp_l, Z.sub_diag. reflexivity.
Qed.

(** An instance: the timer of the scenario on a nanosecond clock, stopped by
    a thread whose hash does not fit 32 bits. *)
Lemma X9_Stop_forwards_a_well_formed_record_witness :
  exists r,
    snd (Stop {| ticks_per_microsecond := 1000; now := 1500999;
                 thread_hash := 2 ^ 32 + 7 |}
              {| timer_name := "A"; stopped := false; start_timepoint := 1000000 |})
    = [CallWriteRecord r]
    /\ 0 <= start r <= end_ r
    /\ 0 <= thread_id r < 2 ^ 32.
Proof.
  destruct (X9_Stop_forwards_a_well_formed_record
              {| ticks_per_microsecond := 1000; now := 1500999;
                 thread_hash := 2 ^ 32 + 7 |}
              {| timer_name := "A"; stopped := false; start_timepoint := 1000000 |})
    as (r & H1 & _ & H3 & _ & _ & _ & H7 & _).
  - reflexivity.
  - split; discriminate.
  - reflexivity.
  - exists r. split; [exact H1 | split; [exact H3 | exact H7]].
Defined.

(** X10: a scope nested in another.  The inner timer is destroyed first, so
    its record is forwarded first; and when the four clock readings are taken
    in order on one clock of positive resolution, the interval of the inner
    record lies within the interval of the outer one (rounding to
    microseconds keeps the nesting). *)
Theorem X10_nested_scopes_nest :
  forall (outer inner : string) (b1 b2 d2 d1 : Reading),
    0 < ticks_per_microsecond d1 ->
    same_clock d2 d1 ->
    now b1 <= now b2 <= now d2 ->
    now d2 <= now d1 ->
    exists ri ro,
      PROFILE_SCOPE outer b1 (PROFILE_SCOPE inner b2 [] d2) d1
      = [CallWriteRecord ri; CallWriteRecord ro]
      /\ name ri = inner /\ name ro = outer
      /\ start ro <= start ri
      /\ start ri <= end_ ri
      /\ end_ ri <= end_ ro.
Proof.
  intros outer inner b1 b2 d2 d1 Hk Hsame [H12 H22] H21.
  exists (Stop_record d2 (Timer_ctor inner b2)), (Stop_record d1 (Timer_ctor outer b1)).
  split; [reflexivity|]. split; [reflexivity|]. split; [reflexivity|].
  unfold Stop_record, Timer_ctor, microseconds, same_clock in *.
  cbn [start end_ start_timepoint]. rewrite Hsame.
  split; [|split]; apply Z.quot_le_mono; assumption.
Qed.

(** An instance: a scope of 300 microseconds inside one of 1000. *)
Lemma X10_nested_scopes_nest_witness :
  exists ri ro,
    PROFILE_SCOPE "outer" (mkReading 1000 1000000 7)
      (PROFILE_SCOPE "inner" (mkReading 1000 1200000 7) [] (mkReading 1000 1500000 7))
      (mkReading 1000 2000000 7)
    = [CallWriteRecord ri; CallWriteRecord ro]
    /\ start ro <= start ri /\ end_ ri <= end_ ro.
Proof.
  destruct (X10_nested_scopes_nest "outer" "inner"
              (mkReading 1000 1000000 7) (mkReading 1000 1200000 7)
              (mkReading 1000 1500000 7) (mkReading 1000 2000000 7))
    as (ri & ro & H1 & _ & _ & H4 & _ & H6).
  - reflexivity.
  - reflexivity.
  - split; discriminate.
  - discriminate.
  - exists ri, ro. split; [exact H1 | split; [exact H4 | exact H6]].
Defined.

(** X11: the macros end to end.  Between two calls and with no session
    active, a session on a path that can be opened around two nested scopes
    returns and leaves in the file the document of the two records, the one of
    the inner scope first; when the two names contain no backslash and no
    control character the file reads back as a trace of these two events. *)
Theorem X11_session_around_nested_scopes :
  forall (n p outer inner : string) (b1 b2 d2 d1 : Reading) (w : World),
    quiescent w ->
    has_session w = false ->
    openable w p = true ->
    exists w',
      run (PROFILE_SESSION n p
             (PROFILE_SCOPE outer b1 (PROFILE_SCOPE inner b2 [] d2) d1)) w
      = Returns w'
      /\ files w' !! p
         = Some (document [Stop_record d2 (Timer_ctor inner b2);
                           Stop_record d1 (Timer_ctor outer b1)])
      /\ has_session w' = false
      /\ (safe_name inner = true -> safe_name outer = true ->
          parse_json (document [Stop_record d2 (Timer_ctor inner b2);
                                Stop_record d1 (Timer_ctor outer b1)])
          = Some (trace_of [Stop_record d2 (Timer_ctor inner b2);
                            Stop_record d1 (Timer_ctor outer b1)])).
Proof.
  intros n p outer inner b1 b2 d2 d1 w Hq Hidle Hop.
  destruct (quiescent_idle w Hq Hidle) as (pd & b & fr & Hw).
  eexists. split; [|split; [|split]].
  - rewrite Hw at 1.
    change (PROFILE_SESSION n p
              (PROFILE_SCOPE outer b1 (PROFILE_SCOPE inner b2 [] d2) d1))
      with (CallBeginSession n p ::
            map CallWriteRecord [Stop_record d2 (Timer_ctor inner b2);
                                 Stop_record d1 (Timer_ctor outer b1)]
            ++ [CallEndSession]).
    apply (run_session n p _ pd b fr _ _ _ Hop).
  - apply lookup_insert_eq.
  - reflexivity.
  - intros Hi Ho. apply parse_json_document.
    constructor; [exact Hi | constructor; [exact Ho | constructor]].
Qed.

(** An instance: the two scopes of the instance of X10 in a session. *)
Lemma X11_session_around_nested_scopes_witness :
  exists w' text,
    run (PROFILE_SESSION "T" "out.json"
           (PROFILE_SCOPE "outer" (mkReading 1000 1000000 7)
              (PROFILE_SCOPE "inner" (mkReading 1000 1200000 7) []
                 (mkReading 1000 1500000 7))
              (mkReading 1000 2000000 7)))
        (Get_initial ∅ (fun _ => true)) = Returns w'
    /\ files w' !! "out.json" = Some text
    /\ exists v, parse_json text = Some v.
Proof.
  destruct (X11_session_around_nested_scopes "T" "out.json" "outer" "inner"
              (mkReading 1000 1000000 7) (mkReading 1000 1200000 7)
              (mkReading 1000 1500000 7) (mkReading 1000 2000000 7)
              (Get_initial ∅ (fun _ => true)))
    as (w' & H1 & H2 & _ & H4).
  - split; reflexivity.
  - reflexivity.
  - reflexivity.
  - exists w'. eexists. split; [exact H1 | split; [exact H2|]].
    eexists. apply H4; reflexivity.
Defined.

Lemma read_integer_put_integer (z : Z) : read_integer (put_integer z) = Some z.
Proof.
  unfold read_integer, put_integer.
  rewrite NilZero.isi.
  - cbn [option_map]. now rewrite DecimalZ.of_to.
  - destruct z as [|q|q]; cbn [Z.to_int]; try discriminate.
    intros H. injection H as H. exact (Unsigned.to_uint_nonnil q H).
  - destruct z as [|q|q]; cbn [Z.to_int]; try discriminate.
    intros H. injection H as H. exact (Unsigned.to_uint_nonnil q H).
Qed.

Lemma replace_quote_free (s : string) :
  quote_free s = true -> replace dquote squote s = s.
Proof.
  induction s as [|c s IH]; [reflexivity|].
  cbn [quote_free replace]. intros H. apply andb_true_iff in H as [Hc Hs].
  apply negb_true_iff in Hc. now rewrite Hc, (IH Hs).
Qed.

Lemma quote_free_replace (s : string) :
  quote_free (replace dquote squote s) = true.
Proof.
  induction s as [|c s IH]; [reflexivity|].
  cbn [quote_free replace]. rewrite IH, andb_true_r.
  destruct (Ascii.eqb c dquote) eqn:E; [reflexivity | now rewrite E].
Qed.

Lemma decode_event_of (r : Result) :
  decode_event (event_of r) =
  Some {| name := replace dquote squote (name r);
          start := start r;
          end_ := start r + wrap_long_long (end_ r - start r);
          thread_id := thread_id r |}.
Proof.
  unfold decode_event, string_member, number_member, field, event_of.
  cbn [member String.eqb Ascii.eqb Bool.eqb].
  now rewrite !read_integer_put_integer.
Qed.

Lemma decode_event_lossless (r : Result) :
  lossless r -> decode_event (event_of r) = Some r.
Proof.
  intros (Hsafe & Hq & Hrange). rewrite decode_event_of.
  rewrite (replace_quote_free _ Hq), (wrap_long_long_in_range _ Hrange).
  destruct r as [nm s e t]. cbn [name start end_ thread_id]. do 2 f_equal. lia.
Qed.

Lemma decode_events_lossless (rs : list Result) :
  Forall lossless rs -> decode_events (map event_of rs) = Some rs.
Proof.
  induction 1 as [|r rs Hr Hrs IH]; [reflexivity|].
  cbn [map decode_events]. now rewrite (decode_event_lossless r Hr), IH.
Qed.

Lemma lossless_safe (rs : list Result) : Forall lossless rs -> safe_records rs.
Proof.
  induction 1 as [|r rs (Hsafe & _) Hrs IH]; constructor; assumption.
Qed.

(** X12: writing and reading back.  For records whose names contain no
    backslash, no control character and no double quote, and whose durations
    do not overflow, the file a session leaves decodes to exactly the records
    written, in the order written; and two such records that differ are never
    written as the same text. *)
Theorem X12_trace_file_round_trip :
  (forall (n p : string) (rs : list Result) (w : World),
     quiescent w ->
     has_session w = false ->
     openable w p = true ->
     Forall lossless rs ->
     exists w' text,
       run (PROFILE_SESSION n p (map CallWriteRecord rs)) w = Returns w'
       /\ files w' !! p = Some text
       /\ decode_trace text = Some rs)
  /\ (forall r1 r2 : Result,
        lossless r1 -> lossless r2 ->
        json_of true r1 = json_of true r2 -> r1 = r2).
Proof.
  split.
  - intros n p rs w Hq Hidle Hop Hrs.
    destruct (quiescent_idle w Hq Hidle) as (pd & b & fr & Hw).
    eexists. exists (document rs). split; [|split].
    + rewrite Hw at 1. apply (run_session n p rs pd b fr _ _ _ Hop).
    + apply lookup_insert_eq.
    + unfold decode_trace.
      rewrite (parse_json_document rs (lossless_safe rs Hrs)).
      cbn [trace_of field member String.eqb Ascii.eqb Bool.eqb].
      apply (decode_events_lossless rs Hrs).
  - intros r1 r2 H1 H2 E.
    pose proof (parse_event 0 r1 EmptyString (proj1 H1)) as P1.
    pose proof (parse_event 0 r2 EmptyString (proj1 H2)) as P2.
    rewrite <- json_of_first_text in P1, P2. rewrite E, P2 in P1.
    apply (f_equal (fun o : option (json * string) =>
                      match o with
                      | Some (v, _) => decode_event v
                      | None => None
                      end)) in P1.
    cbv beta iota in P1.
    rewrite (decode_event_lossless r1 H1), (decode_event_lossless r2 H2) in P1.
    now injection P1.
Qed.

(** An instance: the two records of the scenario, one after the other. *)
Lemma X12_trace_file_round_trip_witness :
  exists w' text,
    run (PROFILE_SESSION "T" "out.json"
           (map CallWriteRecord [scenario_record; scenario_record]))
        (Get_initial ∅ (fun _ => true)) = Returns w'
    /\ files w' !! "out.json" = Some text
    /\ decode_trace text = Some [scenario_record; scenario_record].
Proof.
  apply (proj1 X12_trace_file_round_trip "T" "out.json"
           [scenario_record; scenario_record] (Get_initial ∅ (fun _ => true))).
  - split; reflexivity.
  - reflexivity.
  - reflexivity.
  - repeat constructor; discriminate.
Defined.

(** X13: what the replacement of double quotes does to names.  The name
    written never contains a double quote; a name without double quotes is
    written unchanged; replacing twice is replacing once; and the text of a
    record is the text of the record with its name already replaced, so that
    names that differ only by double quotes against apostrophes are written
    alike and cannot be told apart in the file. *)
Theorem X13_quotes_are_replaced_for_good :
  (forall s : string, quote_free (replace dquote squote s) = true)
  /\ (forall s : string, quote_free s = true -> replace dquote squote s = s)
  /\ (forall s : string,
        replace dquote squote (replace dquote squote s) = replace dquote squote s)
  /\ (forall (first : bool) (r : Result),
        json_of first r =
        json_of first {| name := replace dquote squote (name r); start := start r;
                         end_ := end_ r; thread_id := thread_id r |}).
Proof.
  split; [exact quote_free_replace|]. split; [exact replace_quote_free|].
  assert (Hidem : forall s,
             replace dquote squote (replace dquote squote s) = replace dquote squote s).
  { intros s. apply replace_quote_free, quote_free_replace. }
  split; [exact Hidem|].
  intros first r. unfold json_of. cbn [name start end_ thread_id].
  now rewrite Hidem.
Qed.

(** An instance: a name without double quotes. *)
Lemma X13_quotes_are_replaced_for_good_witness :
  replace dquote squote "void f(int)" = "void f(int)".
Proof.
  apply (proj1 (proj2 X13_quotes_are_replaced_for_good)). reflexivity.
Defined.

(** X14: the duration written is within one microsecond of the time that
    passed.  With a clock of [k > 0] ticks per microsecond and
    [0 <= start_timepoint <= now], the record of Stop() has
    [k * (end - start)] strictly between the elapsed ticks minus [k] and the
    elapsed ticks plus [k]: the two time points are rounded down separately,
    so the duration can be one microsecond more or less than the rounded
    elapsed time, never further off. *)
Theorem X14_duration_is_within_one_microsecond :
  forall (rd : Reading) (t : Timer),
    0 < ticks_per_microsecond rd ->
    0 <= start_timepoint t <= now rd ->
    let r := Stop_record rd t in
    let elapsed := now rd - start_timepoint t in
    snd (Stop rd t) = [CallWriteRecord r]
    /\ elapsed - ticks_per_microsecond rd
       < ticks_per_microsecond rd * (end_ r - start r)
       < elapsed + ticks_per_microsecond rd.
Proof.
  intros rd t Hk [H0 Hle]. cbv zeta. split; [reflexivity|].
  unfold Stop_record, microseconds. cbn [start end_].
  rewrite !Z.quot_div_nonneg by lia.
  pose proof (Z.div_mod (now rd) (ticks_per_microsecond rd) ltac:(lia)) as E1.
  pose proof (Z.div_mod (start_timepoint t) (ticks_per_microsecond rd) ltac:(lia)) as E2.
  pose proof (Z.mod_pos_bound (now rd) (ticks_per_microsecond rd) Hk) as B1.
  pose proof (Z.mod_pos_bound (start_timepoint t) (ticks_per_microsecond rd) Hk) as B2.
  lia.
Qed.

(** An instance: one nanosecond elapsed across a microsecond boundary is
    written as a duration of one microsecond. *)
Lemma X14_duration_is_within_one_microsecond_witness :
  snd (Stop (mkReading 1000 1000 7) (mkTimer "A" false 999))
  = [CallWriteRecord (mkResult "A" 0 1 7)]
  /\ 1 - 1000 < 1000 * (1 - 0) < 1 + 1000.
Proof.
  apply (X14_duration_is_within_one_microsecond
           (mkReading 1000 1000 7) (mkTimer "A" false 999)).
  - reflexivity.
  - split; discriminate.
Defined.

Lemma Stops_effect (rds : list Reading) : forall t : Timer,
  length (snd (Stops rds t)) = length rds
  /\ timer_name (fst (Stops rds t)) = timer_name t
  /\ stopped (fst (Stops rds t)) = (stopped t || negb (Nat.eqb (length rds) 0))%bool
  /\ Forall (records_name (timer_name t)) (snd (Stops rds t)).
Proof.
  induction rds as [|rd rds IH]; intros t.
  - cbn. rewrite orb_false_r. repeat split. constructor.
  - specialize (IH {| timer_name := timer_name t; stopped := true;
                      start_timepoint := start_timepoint t |}).
    cbn [Stops]. unfold Stop. cbv beta iota zeta.
    destruct (Stops rds _) as [t2 calls2] eqn:E.
    cbn [fst snd timer_name stopped] in IH.
    destruct IH as (Hlen & Hname & Hstop & Hall).
    cbn [fst snd app length Nat.eqb negb]. rewrite orb_true_r.
    repeat split; [now rewrite Hlen | exact Hname | exact Hstop |].
    constructor; [reflexivity | exact Hall].
Qed.

(** X15: the records of a whole life.  A Timer on which Stop() is called
    [k] times forwards [k] records, and one when [k = 0] (by the destructor);
    all of them carry the name the Timer was constructed with. *)
Theorem X15_records_of_a_lifetime :
  forall (setName : string) (born : Reading) (explicit : list Reading) (died : Reading),
    length (lifetime setName born explicit died) = Nat.max 1 (length explicit)
    /\ Forall (records_name setName) (lifetime setName born explicit died).
Proof.
  intros setName born explicit died. unfold lifetime.
  pose proof (Stops_effect explicit (Timer_ctor setName born)) as H.
  destruct (Stops explicit (Timer_ctor setName born)) as [t calls].
  cbn [fst snd Timer_ctor timer_name stopped orb] in H.
  destruct H as (Hlen & Hname & Hstop & Hall).
  unfold Timer_dtor. rewrite Hstop.
  destruct explicit as [|rd explicit].
  - cbn [length Nat.eqb negb]. rewrite length_app, Hlen. split; [reflexivity|].
    apply Forall_app. split; [exact Hall|]. constructor; [exact Hname | constructor].
  - cbn [length Nat.eqb negb]. rewrite app_nil_r, Hlen. split; [|exact Hall].
    cbn [length]. lia.
Qed.
